(** * FoodBankAnalysis: the statewide demand scripts, embedded and verified

    A shallow embedding of the analysis scripts of the repository

      - [Statewide/py/food_bank_analysis.py] and its notebook twin
        [Statewide/py/google_colab_script.py] (loader, aggregator, spike
        detection, seasonality),
      - [Statewide/py/prediction.py] (loader, structural-break check,
        train/test split, baselines, final refit),
      - [Advanced_Visuals/py/advanced_analysis.py] and
        [Advanced_Visuals/py/find_examples.py] (healthy-store ratio).

    Modelling conventions.

      - A Python [float] / numpy [float64] is a primitive binary64 float
        ([PrimFloat.float]): NaN, the infinities, division by zero and
        comparisons with NaN behave as in the scripts.  Column reductions
        ([sum], [mean], [std]) add from left to right; numpy and pandas may
        add in another order, which changes low-order bits only and is never
        used by a theorem below.
      - A DataFrame is the list of its rows, in row order.  The ['Date']
        column, parsed with the format ['%b-%y'], only ever holds the first
        day of a month: a date is the month number [12 * year + (month - 1)].
      - A Python exception is a value [Raise e] of the type [result].
      - Printing is a list of lines; plotting is a sink and is left out.
      - The statistical models of statsmodels (seasonal decomposition,
        Holt-Winters, SARIMAX) and the numeric parser behind
        [pd.to_numeric] are black boxes: section variables. *)

From Stdlib Require Import String Ascii.
From Stdlib Require Import List ZArith Bool Lia.
From Stdlib Require Import Permutation Sorted.
From Stdlib Require Import Floats.
Import ListNotations.

(** ** Python exceptions *)

Inductive exn : Type :=
| ValueError
| IndexError
| ZeroDivisionError.

Inductive result (A : Type) : Type :=
| Ok (a : A)
| Raise (e : exn).

Arguments Ok {A} a.
Arguments Raise {A} e.

Definition bind {A B : Type} (m : result A) (k : A -> result B) : result B :=
  match m with
  | Ok a => k a
  | Raise e => Raise e
  end.

Notation "x <- m ;; k" := (bind m (fun x => k))
  (at level 61, m at next level, right associativity).
Notation "' p <- m ;; k" := (bind m (fun x => let p := x in k))
  (at level 61, p pattern, m at next level, right associativity).

Definition raises {A : Type} (m : result A) : bool :=
  match m with
  | Ok _ => false
  | Raise _ => true
  end.

(** ** Floating-point columns *)

Module Num.

Open Scope float_scope.

(** [x != x], numpy's [isnan]. *)
Definition isnan (x : float) : bool := negb (x =? x).

(** [np.isfinite]. *)
Definition isfinite (x : float) : bool :=
  negb (isnan x) && negb (x =? infinity) && negb (x =? neg_infinity).

(** [len] of a column as a float. *)
Fixpoint of_nat (n : nat) : float :=
  match n with
  | O => 0
  | S k => of_nat k + 1
  end.

Definition dropna (l : list float) : list float :=
  filter (fun x => negb (isnan x)) l.

(** Left-to-right sum. *)
Definition sum (l : list float) : float :=
  fold_left PrimFloat.add l 0.

(** pandas [Series.sum()] and [groupby(...).sum()]: missing values are
    skipped ([skipna=True], [min_count=0]), so an all-missing column sums
    to [0]. *)
Definition nansum (l : list float) : float := sum (dropna l).

(** pandas [Series.mean()]: the mean of the values that are present; [nan]
    (as [0 / 0]) when there is none. *)
Definition mean (l : list float) : float :=
  nansum l / of_nat (length (dropna l)).

(** pandas [Series.std()]: the sample standard deviation ([ddof=1]) of the
    values that are present; [nan] with fewer than two of them. *)
Definition std (l : list float) : float :=
  let xs := dropna l in
  let n := length xs in
  if (n <=? 1)%nat then nan
  else
    let avg := sum xs / of_nat n in
    PrimFloat.sqrt
      (sum (map (fun x => (avg - x) * (avg - x)) xs) / of_nat (n - 1)).

Lemma pos_not_zero (d : float) : (0 <? d) = true -> (d =? 0) = false.
Proof.
  rewrite ltb_spec, eqb_spec.
  change (Prim2SF 0) with (S754_zero false).
  destruct (Prim2SF d) as [s | s | | s m e]; try destruct s; cbn; congruence.
Qed.

Lemma zero_not_pos (d : float) : (d =? 0) = true -> (0 <? d) = false.
Proof.
  intros H. destruct (0 <? d) eqn:E; [|reflexivity].
  apply pos_not_zero in E. congruence.
Qed.

(** NaN propagates through the arithmetic of a change. *)
Lemma div_nan (x : float) : x / nan = nan.
Proof.
  rewrite <- (SF2Prim_Prim2SF (x / nan)), div_spec.
  change (Prim2SF nan) with S754_nan.
  destruct (Prim2SF x) as [s | s | | s m e]; reflexivity.
Qed.

Lemma nan_sub (y : float) : nan - y = nan.
Proof.
  rewrite <- (SF2Prim_Prim2SF (nan - y)), sub_spec.
  change (Prim2SF nan) with S754_nan. reflexivity.
Qed.

Lemma dropna_app (l1 l2 : list float) :
  dropna (l1 ++ l2) = dropna l1 ++ dropna l2.
Proof. apply filter_app. Qed.

(** Only NaN differs from itself. *)
Lemma isnan_nan (x : float) : isnan x = true -> x = nan.
Proof.
  unfold isnan. rewrite eqb_spec. intros H. apply negb_true_iff in H.
  rewrite <- (SF2Prim_Prim2SF x).
  destruct (Prim2SF x) as [s | s | | s m e]; [| |reflexivity|]; exfalso.
  - discriminate H.
  - destruct s; discriminate H.
  - unfold SFeqb, SFcompare in H.
    rewrite Z.compare_refl in H.
    change (Pos.compare_cont Eq m m) with (Pos.compare m m) in H.
    rewrite Pos.compare_refl in H. destruct s; discriminate H.
Qed.

Lemma nan_div (y : float) : nan / y = nan.
Proof.
  rewrite <- (SF2Prim_Prim2SF (nan / y)), div_spec.
  change (Prim2SF nan) with S754_nan. reflexivity.
Qed.

(** Fewer than two values present: no standard deviation. *)
Lemma std_short (l : list float) :
  (length (dropna l) <= 1)%nat -> std l = nan.
Proof.
  intros H. unfold std. apply Nat.leb_le in H. now rewrite H.
Qed.

(** *** The order of floats *)

Lemma SFltb_pos_iff (m1 m2 : positive) (e1 e2 : Z) :
  SFltb (S754_finite false m1 e1) (S754_finite false m2 e2) = true <->
  (e1 < e2 \/ (e1 = e2 /\ (m1 < m2)%positive))%Z.
Proof.
  unfold SFltb, SFcompare.
  change (Pos.compare_cont Eq m1 m2) with (Pos.compare m1 m2).
  destruct (e1 ?= e2)%Z eqn:E.
  - apply Z.compare_eq in E. destruct (m1 ?= m2)%positive eqn:M.
    + apply Pos.compare_eq in M. split; [discriminate|]. lia.
    + rewrite Pos.compare_lt_iff in M. split; [lia|reflexivity].
    + rewrite Pos.compare_gt_iff in M. split; [discriminate|]. lia.
  - rewrite Z.compare_lt_iff in E. split; [lia|reflexivity].
  - rewrite Z.compare_gt_iff in E. split; [discriminate|]. lia.
Qed.

Lemma SFltb_neg_iff (m1 m2 : positive) (e1 e2 : Z) :
  SFltb (S754_finite true m1 e1) (S754_finite true m2 e2) = true <->
  (e2 < e1 \/ (e1 = e2 /\ (m2 < m1)%positive))%Z.
Proof.
  unfold SFltb, SFcompare.
  change (Pos.compare_cont Eq m1 m2) with (Pos.compare m1 m2).
  destruct (e1 ?= e2)%Z eqn:E.
  - apply Z.compare_eq in E.
    destruct (m1 ?= m2)%positive eqn:M; cbn [CompOpp].
    + apply Pos.compare_eq in M. split; [discriminate|]. lia.
    + rewrite Pos.compare_lt_iff in M. split; [discriminate|]. lia.
    + rewrite Pos.compare_gt_iff in M. split; [lia|reflexivity].
  - rewrite Z.compare_lt_iff in E. split; [discriminate|]. lia.
  - rewrite Z.compare_gt_iff in E. split; [lia|reflexivity].
Qed.

Lemma SFltb_trans (a b c : spec_float) :
  SFltb a b = true -> SFltb b c = true -> SFltb a c = true.
Proof.
  destruct a as [sa|sa| |sa ma ea], b as [sb|sb| |sb mb eb],
    c as [sc|sc| |sc mc ec];
    try destruct sa; try destruct sb; try destruct sc;
    try reflexivity; try discriminate;
    try (intros _ H; discriminate H); try (intros H _; discriminate H);
    rewrite ?SFltb_pos_iff, ?SFltb_neg_iff; lia.
Qed.

Lemma ltb_trans (a b c : float) :
  (a <? b) = true -> (b <? c) = true -> (a <? c) = true.
Proof. rewrite !ltb_spec. apply SFltb_trans. Qed.

Lemma ltb_irrefl (a : float) : (a <? a) = false.
Proof.
  rewrite ltb_spec. destruct (Prim2SF a) as [s|s| |s m e];
    try destruct s; try reflexivity.
  - apply not_true_iff_false. rewrite SFltb_neg_iff. lia.
  - apply not_true_iff_false. rewrite SFltb_pos_iff. lia.
Qed.

Lemma ltb_nan_r (a : float) : (a <? nan) = false.
Proof.
  rewrite ltb_spec. change (Prim2SF nan) with S754_nan.
  now destruct (Prim2SF a) as [s|s| |s m e].
Qed.

End Num.

(** ** Healthy-store ratio ([advanced_analysis.py], [find_examples.py]) *)

Module Swamp.

Open Scope float_scope.

(** A census-tract row of the mRFEI table, with the two columns the ratio
    reads. *)
Record tract : Type := mkTract {
  geoname : string;
  numerator : float;
  denominator : float
}.

(** The division of the lambda, instrumented: a zero divisor is reported as
    [ZeroDivisionError] rather than as IEEE's [inf] or [nan], so that "no
    division by zero is evaluated" is the absence of that outcome. *)
Definition checked_div (a b : float) : result float :=
  if b =? 0 then Raise ZeroDivisionError else Ok (a / b).

(** [lambda row: row['numerator'] / row['denominator']
                 if row['denominator'] > 0 else 0] *)
Definition Healthy_Ratio (row : tract) : result float :=
  if 0 <? denominator row
  then checked_div (numerator row) (denominator row)
  else Ok 0.

(** [cc_df.apply(..., axis=1)]: the lambda on every row; the first failure
    aborts the column. *)
Fixpoint Healthy_Ratio_column (rows : list tract) : result (list float) :=
  match rows with
  | [] => Ok []
  | row :: rest =>
      h <- Healthy_Ratio row ;;
      t <- Healthy_Ratio_column rest ;;
      Ok (h :: t)
  end.

(** The ratio without the instrumentation, as the lambda computes it. *)
Definition ratio_value (row : tract) : float :=
  if 0 <? denominator row then numerator row / denominator row else 0.

Lemma Healthy_Ratio_total (row : tract) :
  Healthy_Ratio row = Ok (ratio_value row).
Proof.
  unfold Healthy_Ratio, ratio_value, checked_div.
  destruct (0 <? denominator row) eqn:E; [|reflexivity].
  now rewrite (Num.pos_not_zero _ E).
Qed.

Lemma Healthy_Ratio_column_total (rows : list tract) :
  Healthy_Ratio_column rows = Ok (map ratio_value rows).
Proof.
  induction rows as [|row rest IH]; [reflexivity|].
  cbn [Healthy_Ratio_column map].
  now rewrite Healthy_Ratio_total, IH.
Qed.

(** C9: the healthy-store ratio is numerator / denominator when the
    denominator is strictly positive and [0] when the denominator is zero
    (a desert tract); no row, and so no column, ever evaluates a division
    by zero. *)
Theorem Healthy_Ratio_guarded (row : tract) :
  ((0 <? denominator row) = true ->
     Healthy_Ratio row = Ok (numerator row / denominator row)) /\
  ((denominator row =? 0) = true -> Healthy_Ratio row = Ok 0) /\
  Healthy_Ratio row <> Raise ZeroDivisionError /\
  (forall rows, raises (Healthy_Ratio_column rows) = false).
Proof.
  rewrite Healthy_Ratio_total. unfold ratio_value.
  repeat split.
  - intros ->. reflexivity.
  - intros H. now rewrite (Num.zero_not_pos _ H).
  - discriminate.
  - intros rows. now rewrite Healthy_Ratio_column_total.
Qed.

Definition desert_tract : tract := mkTract "3010.00" 0 0.
Definition swamp_tract : tract := mkTract "3552.02" 1 12.

Lemma Healthy_Ratio_guarded_witness :
  Healthy_Ratio swamp_tract = Ok (1 / 12) /\
  Healthy_Ratio desert_tract = Ok 0.
Proof.
  split.
  - apply (proj1 (Healthy_Ratio_guarded swamp_tract)). reflexivity.
  - apply (proj1 (proj2 (Healthy_Ratio_guarded desert_tract))). reflexivity.
Defined.

(** *** The example lists of [find_examples.py] *)

(** The thresholds of the two lists, as the doubles Python reads. *)
Definition swamp_ratio : float := 0x1.3333333333333p-3.  (* 0.15 *)
Definition oasis_ratio : float := 0x1.999999999999ap-2.  (* 0.4 *)

(** [sort_values(key, ascending=False)] on a column without NaN: an
    insertion sort; rows with equal keys keep their order, where pandas may
    order them differently. *)
Fixpoint insert_desc (key : tract -> float) (r : tract) (l : list tract)
  : list tract :=
  match l with
  | [] => [r]
  | x :: t => if key r <? key x then x :: insert_desc key r t else r :: l
  end.

Definition sort_values_desc (key : tract -> float) (l : list tract)
  : list tract :=
  fold_right (insert_desc key) [] l.

(** [cc_df[(cc_df['denominator'] > 10) & (cc_df['Healthy_Ratio'] < 0.15)]
      .sort_values('denominator', ascending=False)] *)
Definition swamps (cc_df : list tract) : list tract :=
  sort_values_desc denominator
    (filter (fun r => (10 <? denominator r) && (ratio_value r <? swamp_ratio))
            cc_df).

(** [cc_df[(cc_df['denominator'] > 3) & (cc_df['Healthy_Ratio'] > 0.4)]
      .sort_values('Healthy_Ratio', ascending=False)] *)
Definition greens (cc_df : list tract) : list tract :=
  sort_values_desc ratio_value
    (filter (fun r => (3 <? denominator r) && (oasis_ratio <? ratio_value r))
            cc_df).

(** The two tables [find_examples] prints: [swamps.head(5)] and
    [greens.head(5)]. *)
Definition find_examples (cc_df : list tract) : list tract * list tract :=
  (firstn 5 (swamps cc_df), firstn 5 (greens cc_df)).

Lemma insert_desc_perm (key : tract -> float) (r : tract) (l : list tract) :
  Permutation (insert_desc key r l) (r :: l).
Proof.
  induction l as [|x t IH]; [reflexivity|].
  cbn [insert_desc]. destruct (key r <? key x); [|reflexivity].
  rewrite IH. apply perm_swap.
Qed.

Lemma sort_values_desc_perm (key : tract -> float) (l : list tract) :
  Permutation (sort_values_desc key l) l.
Proof.
  induction l as [|r t IH]; [reflexivity|].
  cbn [sort_values_desc fold_right]. rewrite insert_desc_perm.
  now constructor.
Qed.

Lemma In_firstn {A : Type} (n : nat) (l : list A) (x : A) :
  In x (firstn n l) -> In x l.
Proof.
  intros H. rewrite <- (firstn_skipn n l). apply in_or_app. now left.
Qed.

Lemma SFltb_finite_pos (m1 m2 : positive) (e1 e2 : Z) :
  SFltb (S754_finite false m1 e1) (S754_finite false m2 e2) =
  match (e1 ?= e2)%Z with
  | Eq => match Pos.compare_cont Eq m1 m2 with Lt => true | _ => false end
  | Lt => true
  | Gt => false
  end.
Proof. unfold SFltb, SFcompare. now destruct (e1 ?= e2)%Z. Qed.

(** A ratio below 0.15 is not above 0.4. *)
Lemma below_swamp_not_above_oasis (x : float) :
  (x <? swamp_ratio) = true -> (oasis_ratio <? x) = false.
Proof.
  rewrite !ltb_spec.
  change (Prim2SF swamp_ratio)
    with (S754_finite false 5404319552844595 (-55)).
  change (Prim2SF oasis_ratio)
    with (S754_finite false 7205759403792794 (-54)).
  destruct (Prim2SF x) as [s | s | | s m e]; try (intros _; reflexivity).
  - destruct s; [reflexivity|discriminate].
  - destruct s; [reflexivity|].
    rewrite !SFltb_finite_pos.
    destruct (e ?= -55)%Z eqn:E1.
    + apply Z.compare_eq in E1. subst e. reflexivity.
    + rewrite Z.compare_lt_iff in E1. intros _.
      destruct (-54 ?= e)%Z eqn:E2; try reflexivity.
      * apply Z.compare_eq in E2. lia.
      * rewrite Z.compare_lt_iff in E2. lia.
    + discriminate.
Qed.

(** A denominator equal to zero is above no positive threshold. *)
Lemma zero_not_above (c d : float) :
  (0 <? c) = true -> (d =? 0) = true -> (c <? d) = false.
Proof.
  rewrite !ltb_spec, eqb_spec. change (Prim2SF 0) with (S754_zero false).
  intros Hc Hd.
  destruct (Prim2SF d) as [s | s | | s m e].
  - destruct (Prim2SF c) as [s' | s' | | s' m' e']; try reflexivity;
      destruct s'; try reflexivity; discriminate Hc.
  - destruct s; discriminate Hd.
  - discriminate Hd.
  - destruct s; discriminate Hd.
Qed.

Lemma In_swamps (cc_df : list tract) (r : tract) :
  In r (swamps cc_df) <->
  In r cc_df /\ (10 <? denominator r) = true /\
  (ratio_value r <? swamp_ratio) = true.
Proof.
  unfold swamps. split.
  - intros H. apply (Permutation_in _ (sort_values_desc_perm _ _)) in H.
    apply filter_In in H as [H Hp]. now apply andb_true_iff in Hp.
  - intros (H & H1 & H2).
    apply (Permutation_in _ (Permutation_sym (sort_values_desc_perm _ _))).
    apply filter_In. split; [exact H|]. now rewrite H1, H2.
Qed.

Lemma In_greens (cc_df : list tract) (r : tract) :
  In r (greens cc_df) <->
  In r cc_df /\ (3 <? denominator r) = true /\
  (oasis_ratio <? ratio_value r) = true.
Proof.
  unfold greens. split.
  - intros H. apply (Permutation_in _ (sort_values_desc_perm _ _)) in H.
    apply filter_In in H as [H Hp]. now apply andb_true_iff in Hp.
  - intros (H & H1 & H2).
    apply (Permutation_in _ (Permutation_sym (sort_values_desc_perm _ _))).
    apply filter_In. split; [exact H|]. now rewrite H1, H2.
Qed.

(** X7: the two tables of [find_examples] hold at most 5 tracts each, all
    from the county frame; no tract is listed both as a swamp and as an
    oasis, and a desert tract (no store at all) is listed in neither. *)
Theorem examples_are_separated (cc_df : list tract) (r : tract) :
  (length (fst (find_examples cc_df)) <= 5)%nat /\
  (length (snd (find_examples cc_df)) <= 5)%nat /\
  (In r (fst (find_examples cc_df)) ->
     In r cc_df /\ ~ In r (snd (find_examples cc_df))) /\
  (In r (snd (find_examples cc_df)) -> In r cc_df) /\
  ((denominator r =? 0) = true ->
     ~ In r (fst (find_examples cc_df)) /\
     ~ In r (snd (find_examples cc_df))).
Proof.
  unfold find_examples. cbn [fst snd].
  split; [apply firstn_le_length|]. split; [apply firstn_le_length|].
  split; [|split].
  - intros H. apply In_firstn, In_swamps in H as (Hin & _ & Hr).
    split; [exact Hin|]. intros G.
    apply In_firstn, In_greens in G as (_ & _ & Hg).
    apply below_swamp_not_above_oasis in Hr. congruence.
  - intros H. now apply In_firstn, In_greens in H.
  - intros Hd. split; intros H.
    + apply In_firstn, In_swamps in H as (_ & H10 & _).
      rewrite (zero_not_above 10 _ eq_refl Hd) in H10. discriminate.
    + apply In_firstn, In_greens in H as (_ & H3 & _).
      rewrite (zero_not_above 3 _ eq_refl Hd) in H3. discriminate.
Qed.

Definition oasis_tract : tract := mkTract "3100.00" 6 11.

Lemma examples_are_separated_witness :
  find_examples [desert_tract; swamp_tract; oasis_tract] =
    ([swamp_tract], [oasis_tract]) /\
  ~ In swamp_tract
      (snd (find_examples [desert_tract; swamp_tract; oasis_tract])) /\
  ~ In desert_tract
      (fst (find_examples [desert_tract; swamp_tract; oasis_tract])).
Proof.
  split; [reflexivity|]. split.
  - apply (proj1 (proj2 (proj2
             (examples_are_separated
                [desert_tract; swamp_tract; oasis_tract] swamp_tract)))).
    left. reflexivity.
  - apply (proj2 (proj2 (proj2 (proj2
             (examples_are_separated
                [desert_tract; swamp_tract; oasis_tract] desert_tract))))).
    reflexivity.
Defined.

End Swamp.

(** ** Text cells and numeric cleaning (the loaders) *)

Module Loader.

Open Scope string_scope.

(** [s.replace(c, '')] for a one-character pattern [c]: every occurrence of
    [c] is dropped.  (pandas treats a one-character pattern as a literal in
    every version, so ['*'] is the asterisk.) *)
Fixpoint str_remove (c : ascii) (s : string) : string :=
  match s with
  | EmptyString => EmptyString
  | String a t =>
      if Ascii.eqb a c then str_remove c t else String a (str_remove c t)
  end.

(** [str.isspace], a character of a cell being a code point below 256: tab,
    line feed, vertical tab, form feed, carriage return, the separators 28
    to 31, the space, next line (133) and the no-break space (160). *)
Definition isspace (a : ascii) : bool :=
  let n := nat_of_ascii a in
  ((9 <=? n) && (n <=? 13) || (28 <=? n) && (n <=? 32)
   || (n =? 133) || (n =? 160))%nat.

Definition is_empty (s : string) : bool :=
  match s with
  | EmptyString => true
  | String _ _ => false
  end.

Fixpoint lstrip (s : string) : string :=
  match s with
  | EmptyString => EmptyString
  | String a t => if isspace a then lstrip t else s
  end.

Fixpoint rstrip (s : string) : string :=
  match s with
  | EmptyString => EmptyString
  | String a t =>
      let t' := rstrip t in
      if isspace a && is_empty t' then EmptyString else String a t'
  end.

(** [s.strip()]: leading and trailing whitespace go. *)
Definition strip (s : string) : string := rstrip (lstrip s).

(** A cell of a numeric column as [read_csv] delivers it: a number when the
    whole column was read as numeric, and otherwise (dtype [object]) the text
    of the cell, or a missing value for an empty cell. *)
Inductive cell : Type :=
| Number (f : float)
| Text (s : string)
| Missing.

(** [astype(str)] on a cell of an [object] column; a missing value prints as
    ["nan"]. *)
Definition astype_str (c : cell) : string :=
  match c with
  | Text s => s
  | _ => "nan"
  end.

(** [.str.replace(',', '').str.replace('*', '').str.replace('%', '')] *)
Definition remove_artifacts (s : string) : string :=
  str_remove "%" (str_remove "*" (str_remove "," s)).

(** The whole chain of string methods of the cleaning loop. *)
Definition clean_text (s : string) : string :=
  strip (remove_artifacts s).

Section Parser.

(** [pd.to_numeric] on one string: [None] when the string is no number. *)
Variable to_numeric : string -> option float.

(** [errors='coerce']: what does not parse becomes NaN. *)
Definition coerce (o : option float) : float :=
  match o with
  | Some v => v
  | None => nan
  end.

(** One cell through the body of [for col in numeric_cols]: the string
    methods run only on a column of dtype [object], [pd.to_numeric] runs on
    every column and leaves numbers as they are. *)
Definition clean_numeric (c : cell) : float :=
  match c with
  | Number f => f
  | _ => coerce (to_numeric (clean_text (astype_str c)))
  end.

End Parser.

(** *** Facts on the string methods *)

Lemma rstrip_lstrip (s : string) : rstrip (lstrip s) = lstrip (rstrip s).
Proof.
  induction s as [|a t IH]; [reflexivity|].
  cbn [lstrip rstrip].
  destruct (isspace a) eqn:Ha; cbn [andb].
  - rewrite IH. destruct (rstrip t) eqn:Et; cbn [is_empty lstrip].
    + reflexivity.
    + now rewrite Ha.
  - cbn [rstrip lstrip]. now rewrite Ha.
Qed.

Lemma lstrip_idem (s : string) : lstrip (lstrip s) = lstrip s.
Proof.
  induction s as [|a t IH]; [reflexivity|].
  cbn [lstrip]. destruct (isspace a) eqn:Ha; [exact IH|].
  cbn [lstrip]. now rewrite Ha.
Qed.

Lemma strip_lstrip (s : string) : strip (lstrip s) = strip s.
Proof. unfold strip. now rewrite lstrip_idem. Qed.

(** The cleaned text of a cell is what remains of it once the three
    artifact characters and the whitespace at both ends are gone. *)
Lemma clean_numeric_text (to_numeric : string -> option float) (s : string) :
  clean_numeric to_numeric (Text s) =
  coerce (to_numeric (lstrip (rstrip (remove_artifacts s)))).
Proof.
  cbn [clean_numeric astype_str]. unfold clean_text, strip.
  now rewrite rstrip_lstrip.
Qed.

(** *** A parser for integer numerals

    Enough of [pd.to_numeric] to run the cleaning on the examples of the
    specification: optional sign, decimal digits, blanks allowed around. *)

Open Scope float_scope.

Definition digit_of (a : ascii) : option float :=
  let n := nat_of_ascii a in
  if ((48 <=? n) && (n <=? 57))%nat then Some (Num.of_nat (n - 48)) else None.

Fixpoint parse_digits (acc : float) (s : string) : option float :=
  match s with
  | EmptyString => Some acc
  | String a t =>
      match digit_of a with
      | Some d => parse_digits (acc * 10 + d) t
      | None => None
      end
  end.

Definition parse_unsigned (s : string) : option float :=
  if is_empty s then None else parse_digits 0 s.

Definition parse_integer (s : string) : option float :=
  match strip s with
  | String "-" t => option_map PrimFloat.opp (parse_unsigned t)
  | String "+" t => parse_unsigned t
  | t => parse_unsigned t
  end.

Lemma parse_integer_lstrip (s : string) :
  parse_integer (lstrip s) = parse_integer s.
Proof. unfold parse_integer. now rewrite strip_lstrip. Qed.

(** *** The numeric parser on blanks

    The parser behind [pd.to_numeric] skips, before and after a numeral,
    the bytes 9 to 13 and the space, and nothing else: fewer characters
    than [str.strip] removes.  [to_numeric_integer] is that parser on
    integer numerals. *)

Definition isspace_ascii (a : ascii) : bool :=
  let n := nat_of_ascii a in
  ((9 <=? n) && (n <=? 13) || (n =? 32))%nat.

Fixpoint skip_leading_blanks (s : string) : string :=
  match s with
  | EmptyString => EmptyString
  | String a t => if isspace_ascii a then skip_leading_blanks t else s
  end.

Fixpoint skip_trailing_blanks (s : string) : string :=
  match s with
  | EmptyString => EmptyString
  | String a t =>
      let t' := skip_trailing_blanks t in
      if isspace_ascii a && is_empty t' then EmptyString else String a t'
  end.

Definition to_numeric_integer (s : string) : option float :=
  match skip_trailing_blanks (skip_leading_blanks s) with
  | String "-" t => option_map PrimFloat.opp (parse_unsigned t)
  | String "+" t => parse_unsigned t
  | t => parse_unsigned t
  end.

(** *** C8 *)

(** The claim in the words of the specification: the cleaned value is the
    parse of the text without the three artifact characters and without its
    trailing whitespace. *)
Definition parses_text_without_trailing_whitespace
    (to_numeric : string -> option float) (s : string) : Prop :=
  clean_numeric to_numeric (Text s) =
  coerce (to_numeric (rstrip (remove_artifacts s))).

(** A cell that starts with the separator 28, which [str.strip] removes and
    the numeric parser does not skip. *)
Definition cell_with_leading_separator : string := String "028" "1,234%".

(** C8, as stated, fails: [str.strip] removes leading whitespace too.  The
    cell above is cleaned to 1234, where the parse of its text with the
    artifact characters and the trailing whitespace removed is missing. *)
Lemma leading_whitespace_is_stripped_too :
  clean_numeric to_numeric_integer (Text cell_with_leading_separator)
    = 1234 /\
  coerce (to_numeric_integer
            (rstrip (remove_artifacts cell_with_leading_separator))) = nan /\
  ~ parses_text_without_trailing_whitespace
      to_numeric_integer cell_with_leading_separator.
Proof.
  split; [reflexivity|]. split; [reflexivity|].
  unfold parses_text_without_trailing_whitespace. intros H.
  apply (f_equal Num.isnan) in H. vm_compute in H. discriminate H.
Qed.

(** C8, amended: a text cell of a numeric column is cleaned to the numeric
    parse of its text with the thousands separators, asterisks and percent
    signs removed and then the whitespace at both ends, leading and
    trailing, in either order; and to a missing value (NaN) when that text
    does not parse.  This holds whatever the parser. *)
Theorem clean_numeric_parses_stripped
    (to_numeric : string -> option float) (s : string) :
  clean_numeric to_numeric (Text s) =
    coerce (to_numeric (lstrip (rstrip (remove_artifacts s)))) /\
  lstrip (rstrip (remove_artifacts s)) = rstrip (lstrip (remove_artifacts s)) /\
  (to_numeric (lstrip (rstrip (remove_artifacts s))) = None ->
     clean_numeric to_numeric (Text s) = nan) /\
  (forall v, to_numeric (lstrip (rstrip (remove_artifacts s))) = Some v ->
     clean_numeric to_numeric (Text s) = v).
Proof.
  rewrite clean_numeric_text.
  split; [reflexivity|]. split; [symmetry; apply rstrip_lstrip|].
  split; [now intros ->|]. now intros v ->.
Qed.

Lemma clean_numeric_parses_stripped_witness :
  clean_numeric to_numeric_integer (Text "1,234%") = 1234 /\
  clean_numeric to_numeric_integer (Text " 12,5*0 ") = 1250 /\
  clean_numeric to_numeric_integer (Text cell_with_leading_separator)
    = 1234 /\
  clean_numeric to_numeric_integer (Text "N/A") = nan.
Proof.
  split; [|split; [|split]].
  - apply (proj2 (proj2 (proj2 (clean_numeric_parses_stripped
             to_numeric_integer "1,234%")))). reflexivity.
  - apply (proj2 (proj2 (proj2 (clean_numeric_parses_stripped
             to_numeric_integer " 12,5*0 ")))). reflexivity.
  - apply (proj2 (proj2 (proj2 (clean_numeric_parses_stripped
             to_numeric_integer cell_with_leading_separator)))).
    reflexivity.
  - apply (proj1 (proj2 (proj2 (clean_numeric_parses_stripped
             to_numeric_integer "N/A")))). reflexivity.
Defined.

(** *** What the cleaning chain leaves behind *)

(** [c in s] *)
Fixpoint occurs (c : ascii) (s : string) : bool :=
  match s with
  | EmptyString => false
  | String a t => Ascii.eqb a c || occurs c t
  end.

(** The chain of [analyze_recession_lag] ([advanced_analysis.py]):
    [.str.replace(',', '').str.replace('%', '').str.replace('%', '')
     .str.strip()]; the percent sign is replaced twice and the asterisk is
    not replaced. *)
Definition lag_clean_text (s : string) : string :=
  strip (str_remove "%" (str_remove "%" (str_remove "," s))).

(** The chain of [analyze_heat_calendar]:
    [.str.replace(',', '').str.replace('%', '').str.strip()]. *)
Definition heat_clean_text (s : string) : string :=
  strip (str_remove "%" (str_remove "," s)).

Lemma occurs_str_remove (c : ascii) (s : string) :
  occurs c (str_remove c s) = false.
Proof.
  induction s as [|a t IH]; [reflexivity|].
  cbn [str_remove]. destruct (Ascii.eqb a c) eqn:E; [exact IH|].
  cbn [occurs]. now rewrite E.
Qed.

Lemma str_remove_absent (c : ascii) (s : string) :
  occurs c s = false -> str_remove c s = s.
Proof.
  induction s as [|a t IH]; [reflexivity|].
  cbn [occurs str_remove]. intros H. apply orb_false_iff in H as [-> Ht].
  now rewrite IH.
Qed.

Lemma occurs_str_remove_other (c c' : ascii) (s : string) :
  occurs c s = false -> occurs c (str_remove c' s) = false.
Proof.
  induction s as [|a t IH]; [reflexivity|].
  cbn [occurs str_remove]. intros H. apply orb_false_iff in H as [Ha Ht].
  destruct (Ascii.eqb a c'); [now apply IH|].
  cbn [occurs]. now rewrite Ha, IH.
Qed.

Lemma occurs_lstrip (c : ascii) (s : string) :
  occurs c s = false -> occurs c (lstrip s) = false.
Proof.
  induction s as [|a t IH]; [reflexivity|].
  cbn [lstrip]. destruct (isspace a); [|easy].
  cbn [occurs]. intros H. apply orb_false_iff in H as [_ Ht]. now apply IH.
Qed.

Lemma occurs_rstrip (c : ascii) (s : string) :
  occurs c s = false -> occurs c (rstrip s) = false.
Proof.
  induction s as [|a t IH]; [reflexivity|].
  cbn [occurs rstrip]. intros H. apply orb_false_iff in H as [Ha Ht].
  destruct (isspace a && is_empty (rstrip t)); [reflexivity|].
  cbn [occurs]. now rewrite Ha, IH.
Qed.

Lemma occurs_strip (c : ascii) (s : string) :
  occurs c s = false -> occurs c (strip s) = false.
Proof. intros H. unfold strip. now apply occurs_rstrip, occurs_lstrip. Qed.

Lemma rstrip_idem (s : string) : rstrip (rstrip s) = rstrip s.
Proof.
  induction s as [|a t IH]; [reflexivity|].
  cbn [rstrip]. destruct (isspace a && is_empty (rstrip t)) eqn:E;
    [reflexivity|].
  cbn [rstrip]. now rewrite IH, E.
Qed.

Lemma strip_idem (s : string) : strip (strip s) = strip s.
Proof.
  unfold strip.
  now rewrite (rstrip_lstrip s), lstrip_idem, <- rstrip_lstrip, rstrip_idem.
Qed.

Lemma occurs_remove_artifacts (s : string) :
  occurs "," (remove_artifacts s) = false /\
  occurs "*" (remove_artifacts s) = false /\
  occurs "%" (remove_artifacts s) = false.
Proof.
  unfold remove_artifacts. repeat split.
  - apply occurs_str_remove_other, occurs_str_remove_other,
      occurs_str_remove.
  - apply occurs_str_remove_other, occurs_str_remove.
  - apply occurs_str_remove.
Qed.

(** X1: whatever the cell, the cleaned text holds no comma, asterisk or
    percent sign, and neither starts nor ends with whitespace. *)
Theorem clean_text_is_clean (s : string) :
  occurs "," (clean_text s) = false /\
  occurs "*" (clean_text s) = false /\
  occurs "%" (clean_text s) = false /\
  lstrip (clean_text s) = clean_text s /\
  rstrip (clean_text s) = clean_text s.
Proof.
  destruct (occurs_remove_artifacts s) as (Hc & Ha & Hp).
  unfold clean_text. repeat split; try now apply occurs_strip.
  - unfold strip. now rewrite <- rstrip_lstrip, lstrip_idem.
  - unfold strip. apply rstrip_idem.
Qed.

(** X2: cleaning is idempotent: a cell that has been cleaned once is left
    as it is by a second pass, and so parses to the same number. *)
Theorem clean_text_idempotent
    (to_numeric : string -> option float) (s : string) :
  clean_text (clean_text s) = clean_text s /\
  clean_numeric to_numeric (Text (clean_text s)) =
  clean_numeric to_numeric (Text s).
Proof.
  assert (E : clean_text (clean_text s) = clean_text s).
  { destruct (occurs_remove_artifacts s) as (Hc & Ha & Hp).
    unfold clean_text at 1. unfold remove_artifacts.
    rewrite (str_remove_absent "," (clean_text s))
      by (unfold clean_text; now apply occurs_strip).
    rewrite (str_remove_absent "*" (clean_text s))
      by (unfold clean_text; now apply occurs_strip).
    rewrite (str_remove_absent "%" (clean_text s))
      by (unfold clean_text; now apply occurs_strip).
    unfold clean_text. apply strip_idem. }
  split; [exact E|]. cbn [clean_numeric astype_str]. now rewrite E.
Qed.

Lemma str_remove_comm (c c' : ascii) (s : string) :
  str_remove c (str_remove c' s) = str_remove c' (str_remove c s).
Proof.
  induction s as [|a t IH]; [reflexivity|].
  cbn [str_remove].
  destruct (Ascii.eqb a c') eqn:E', (Ascii.eqb a c) eqn:E;
    cbn [str_remove]; rewrite ?E, ?E'; now rewrite ?IH.
Qed.

Lemma occurs_str_remove_kept (c c' : ascii) (s : string) :
  Ascii.eqb c c' = false ->
  occurs c (str_remove c' s) = occurs c s.
Proof.
  intros Hc. induction s as [|a t IH]; [reflexivity|].
  cbn [occurs str_remove]. destruct (Ascii.eqb a c') eqn:E'.
  - apply Ascii.eqb_eq in E'. subst a. now rewrite Ascii.eqb_sym, Hc.
  - cbn [occurs]. now rewrite IH.
Qed.

Lemma occurs_lstrip_kept (c : ascii) (s : string) :
  isspace c = false -> occurs c (lstrip s) = occurs c s.
Proof.
  intros Hc. induction s as [|a t IH]; [reflexivity|].
  cbn [lstrip]. destruct (isspace a) eqn:Ha; [|reflexivity].
  cbn [occurs]. rewrite IH.
  destruct (Ascii.eqb a c) eqn:E; [|reflexivity].
  apply Ascii.eqb_eq in E. congruence.
Qed.

Lemma occurs_rstrip_kept (c : ascii) (s : string) :
  isspace c = false -> occurs c (rstrip s) = occurs c s.
Proof.
  intros Hc. induction s as [|a t IH]; [reflexivity|].
  cbn [rstrip occurs].
  destruct (isspace a) eqn:Ha; cbn [andb].
  - assert (E : Ascii.eqb a c = false).
    { destruct (Ascii.eqb a c) eqn:E; [|reflexivity].
      apply Ascii.eqb_eq in E. congruence. }
    rewrite E. cbn [orb]. rewrite <- IH.
    destruct (rstrip t); cbn [is_empty occurs]; [reflexivity|].
    now rewrite E.
  - cbn [occurs]. now rewrite IH.
Qed.

(** X3: the cleaning chain of [analyze_recession_lag] is the chain of
    [analyze_heat_calendar] (its second percent replacement does nothing);
    on a cell without an asterisk both agree with the statewide loaders,
    and an asterisk in the cell survives them, where the loaders remove
    it. *)
Theorem lag_chain_keeps_asterisk (s : string) :
  lag_clean_text s = heat_clean_text s /\
  (occurs "*" s = false -> lag_clean_text s = clean_text s) /\
  occurs "*" (lag_clean_text s) = occurs "*" s.
Proof.
  assert (E : lag_clean_text s = heat_clean_text s).
  { unfold lag_clean_text, heat_clean_text.
    now rewrite (str_remove_absent "%" (str_remove "%" _))
      by apply occurs_str_remove. }
  split; [exact E|]. rewrite E. unfold heat_clean_text. split.
  - intros H. unfold clean_text, remove_artifacts.
    now rewrite (str_remove_absent "*" (str_remove "," s))
      by now apply occurs_str_remove_other.
  - unfold strip.
    rewrite occurs_rstrip_kept, occurs_lstrip_kept by reflexivity.
    now rewrite !occurs_str_remove_kept by reflexivity.
Qed.

Lemma lag_chain_keeps_asterisk_witness :
  lag_clean_text " 1,234% " = clean_text " 1,234% " /\
  coerce (parse_integer (lag_clean_text "1,234*")) = nan /\
  coerce (parse_integer (clean_text "1,234*")) = 1234%float.
Proof.
  split; [|split; reflexivity].
  apply (proj1 (proj2 (lag_chain_keeps_asterisk " 1,234% "))). reflexivity.
Defined.

End Loader.

(** ** Frames: rows, boolean masks, sorting and grouping *)

Module Frame.

Open Scope Z_scope.

(** The first day of a month, as [12 * year + (month - 1)]. *)
Definition date : Type := Z.

Definition month_start (year month : Z) : date := 12 * year + (month - 1).

(** A row after cleaning: the parsed date, the county label and the numeric
    columns in the order of [numeric_cols]. *)
Record row : Type := mkRow {
  Date : date;
  County : string;
  values : list float
}.

(** Column [j] of the numeric columns of a row. *)
Definition col (j : nat) (r : row) : float := nth j (values r) nan.

(** ['CalFresh Households'] is the first numeric column in every script. *)
Definition Households (r : row) : float := col 0 r.

(** [df[mask]] with a mask computed row by row. *)
Definition where_ (p : row -> bool) (df : list row) : list row := filter p df.

(** [df.empty] *)
Definition empty {A : Type} (df : list A) : bool :=
  match df with
  | [] => true
  | _ :: _ => false
  end.

(** *** [sort_values('Date')]

    An insertion sort that keeps rows of one date in their order; pandas'
    default sort may order such rows differently, and nothing below depends
    on their order. *)
Fixpoint insert_row (r : row) (l : list row) : list row :=
  match l with
  | [] => [r]
  | x :: t => if Date r <=? Date x then r :: l else x :: insert_row r t
  end.

Definition sort_values (df : list row) : list row :=
  fold_right insert_row [] df.

(** *** [groupby('Date').sum().reset_index()] *)

(** The group keys: the distinct dates, ascending. *)
Fixpoint insert_key (d : date) (l : list date) : list date :=
  match l with
  | [] => [d]
  | x :: t =>
      match d ?= x with
      | Lt => d :: l
      | Eq => l
      | Gt => x :: insert_key d t
      end
  end.

Definition group_keys (df : list row) : list date :=
  fold_right insert_key [] (map Date df).

(** The rows of one group, in frame order. *)
Definition group (d : date) (df : list row) : list row :=
  where_ (fun r => Date r =? d) df.

(** The number of numeric columns of a frame, read off its first row. *)
Definition width (df : list row) : nat :=
  match df with
  | [] => O
  | r :: _ => length (values r)
  end.

(** Column-wise sums of a group, missing values skipped. *)
Definition sum_columns (w : nat) (g : list row) : list float :=
  map (fun j => Num.nansum (map (col j) g)) (seq 0 w).

(** Summing the text column of a group concatenates its labels (pandas 2;
    earlier versions drop the column). *)
Definition sum_labels (g : list row) : string :=
  fold_right String.append EmptyString (map County g).

Definition groupby_Date_sum (df : list row) : list row :=
  map (fun d => let g := group d df in
                mkRow d (sum_labels g) (sum_columns (width df) g))
      (group_keys df).

(** *** Order on dates *)

Definition date_le (a b : row) : Prop := Date a <= Date b.

(** Timestamps are strictly increasing in series order (hence unique). *)
Definition strictly_increasing (df : list row) : Prop :=
  StronglySorted Z.lt (map Date df).

Definition nondecreasing (df : list row) : Prop :=
  StronglySorted Z.le (map Date df).

Lemma insert_row_perm (r : row) (l : list row) :
  Permutation (insert_row r l) (r :: l).
Proof.
  induction l as [|x t IH]; [reflexivity|].
  cbn [insert_row]. destruct (Date r <=? Date x); [reflexivity|].
  rewrite IH. apply perm_swap.
Qed.

Lemma sort_values_perm (df : list row) : Permutation (sort_values df) df.
Proof.
  induction df as [|r t IH]; [reflexivity|].
  cbn [sort_values fold_right]. rewrite insert_row_perm.
  now constructor.
Qed.

Lemma insert_row_dates_Forall (P : date -> Prop) (r : row) (l : list row) :
  P (Date r) -> Forall P (map Date l) ->
  Forall P (map Date (insert_row r l)).
Proof.
  intros Hr Hl. induction l as [|x t IH]; cbn [insert_row map].
  - now constructor.
  - destruct (Date r <=? Date x); cbn [map].
    + now constructor.
    + inversion Hl; subst. constructor; auto.
Qed.

Lemma insert_row_sorted (r : row) (l : list row) :
  nondecreasing l -> nondecreasing (insert_row r l).
Proof.
  unfold nondecreasing.
  induction l as [|x t IH]; intros Hs; cbn [insert_row map].
  - repeat constructor.
  - destruct (Date r <=? Date x) eqn:E; cbn [map].
    + apply Z.leb_le in E. constructor; [exact Hs|].
      inversion Hs; subst. constructor; [exact E|].
      eapply Forall_impl; [|eassumption]. cbn. intros; lia.
    + apply Z.leb_gt in E. inversion Hs; subst.
      constructor; [now apply IH|].
      apply insert_row_dates_Forall; [lia|assumption].
Qed.

Lemma sort_values_sorted (df : list row) : nondecreasing (sort_values df).
Proof.
  induction df as [|r t IH]; [constructor|].
  cbn [sort_values fold_right]. now apply insert_row_sorted.
Qed.

Lemma strictly_increasing_nondecreasing (df : list row) :
  strictly_increasing df -> nondecreasing df.
Proof.
  unfold strictly_increasing, nondecreasing.
  induction (map Date df) as [|d t IH]; intros H; [constructor|].
  inversion H; subst. constructor; [auto|].
  eapply Forall_impl; [|eassumption]. cbn. intros; lia.
Qed.

(** Sorting a frame that is already in date order changes nothing. *)
Lemma sort_values_sorted_id (df : list row) :
  nondecreasing df -> sort_values df = df.
Proof.
  unfold nondecreasing.
  induction df as [|r t IH]; intros Hs; [reflexivity|].
  cbn [map] in Hs. inversion Hs; subst.
  cbn [sort_values fold_right]. fold (sort_values t). rewrite (IH H1).
  destruct t as [|x t']; [reflexivity|].
  cbn [insert_row]. cbn [map] in H2. inversion H2; subst.
  now apply Z.leb_le in H3 as ->.
Qed.

Lemma strictly_increasing_NoDup (df : list row) :
  strictly_increasing df -> NoDup (map Date df).
Proof.
  unfold strictly_increasing.
  induction (map Date df) as [|d t IH]; intros H; [constructor|].
  inversion H; subst. constructor; [|auto].
  intros Hin. rewrite Forall_forall in H3. specialize (H3 _ Hin). lia.
Qed.

(** *** Strictly increasing dates *)

Lemma strictly_increasing_where (p : row -> bool) (df : list row) :
  strictly_increasing df -> strictly_increasing (where_ p df).
Proof.
  unfold strictly_increasing, where_.
  induction df as [|r t IH]; intros H; [constructor|].
  cbn [map] in H. inversion H as [|? ? Ht Hr]; subst.
  cbn [filter]. destruct (p r); [|now apply IH].
  cbn [map]. constructor; [now apply IH|].
  apply Forall_forall. intros d Hd. rewrite Forall_forall in Hr. apply Hr.
  apply in_map_iff in Hd as (x & <- & Hx). apply filter_In in Hx as [Hx _].
  now apply in_map.
Qed.

(** Strictly increasing dates between [a] and [b]: at most [b - a + 1] of
    them. *)
Lemma strictly_increasing_length (l : list date) (a b : date) :
  StronglySorted Z.lt l ->
  Forall (fun x => a <= x <= b) l ->
  Z.of_nat (length l) <= Z.max 0 (b - a + 1).
Proof.
  revert a. induction l as [|x t IH]; intros a Hs Hb; [cbn; lia|].
  inversion Hs as [|? ? Ht Hx]; subst. inversion Hb as [|? ? Hxa Htb]; subst.
  assert (B : Forall (fun y => x + 1 <= y <= b) t).
  { rewrite Forall_forall in *. intros y Hy.
    specialize (Hx y Hy). specialize (Htb y Hy). lia. }
  specialize (IH (x + 1) Ht B). cbn [length]. lia.
Qed.

End Frame.

(** ** The loaders and the statewide aggregation

    [load_and_clean_data] and [plot_statewide_trend] of
    [food_bank_analysis.py] (the same in [google_colab_script.py]), and
    [load_data] of [prediction.py]. *)

Module Statewide.

Import Frame.
Open Scope Z_scope.

(** A row of [df_subset] once the date is parsed: [raw_Date] is the result
    of [pd.to_datetime(..., format='%b-%y', errors='coerce')], [None] being
    NaT; the numeric cells are still as read. *)
Record raw_row : Type := mkRaw {
  raw_Date : option date;
  raw_County : string;
  raw_cells : list Loader.cell
}.

Definition is_Statewide (r : row) : bool :=
  String.eqb (County r) "Statewide".

Definition not_Statewide (r : row) : bool := negb (is_Statewide r).

(** [plot_statewide_trend], up to the returned frame: the rows labelled
    ['Statewide'] if the frame has any, and else the per-date sums of the
    other rows; in date order. *)
Definition plot_statewide_trend (df : list row) : list row :=
  let statewide := where_ is_Statewide df in
  let statewide :=
    if empty statewide
    then groupby_Date_sum (where_ not_Statewide df)
    else statewide in
  sort_values statewide.

Section Parser.

Variable to_numeric : string -> option float.

(** The numeric cleaning of every row, then
    [df_subset.dropna(subset=['Date'])]. *)
Definition load_and_clean_data (df_subset : list raw_row) : list row :=
  flat_map
    (fun r =>
       match raw_Date r with
       | Some d =>
           [mkRow d (raw_County r)
                  (map (Loader.clean_numeric to_numeric) (raw_cells r))]
       | None => []
       end)
    df_subset.

(** [load_data] of [prediction.py]: the same cleaning, rows without a date
    or without a household count dropped, then the same aggregation. *)
Definition load_data (df_subset : list raw_row) : list row :=
  let df_clean :=
    where_ (fun r => negb (Num.isnan (Households r)))
           (load_and_clean_data df_subset) in
  let statewide := where_ is_Statewide df_clean in
  let statewide :=
    if empty statewide
    then groupby_Date_sum (where_ not_Statewide df_clean)
    else statewide in
  sort_values statewide.

(** The frame [load_data] aggregates. *)
Definition df_clean (df_subset : list raw_row) : list row :=
  where_ (fun r => negb (Num.isnan (Households r)))
         (load_and_clean_data df_subset).

Lemma load_data_aggregates (df_subset : list raw_row) :
  load_data df_subset = plot_statewide_trend (df_clean df_subset).
Proof. reflexivity. Qed.

End Parser.

(** *** The claim of a per-period choice, in the words of the specification

    For each period of the cleaned frame: the Statewide row of that period
    if it has one, and else the sum of the other rows of that period. *)
Definition per_period_choice (df out : list row) : Prop :=
  forall d, In d (map Date df) ->
    if existsb is_Statewide (group d df)
    then exists r, In r out /\ In r (where_ is_Statewide (group d df))
    else exists r, In r out /\ Date r = d /\
           values r = sum_columns (width df) (where_ not_Statewide (group d df)).

(** *** Group keys *)

Lemma insert_key_In (d x : date) (l : list date) :
  In x (insert_key d l) <-> x = d \/ In x l.
Proof.
  induction l as [|y t IH]; cbn [insert_key In]; [intuition|].
  destruct (d ?= y) eqn:E; cbn [In].
  - apply Z.compare_eq in E. subst. intuition.
  - intuition.
  - rewrite IH. intuition.
Qed.

Lemma insert_key_Forall (P : date -> Prop) (d : date) (l : list date) :
  P d -> Forall P l -> Forall P (insert_key d l).
Proof.
  intros Hd Hl. apply Forall_forall. intros x Hx.
  apply insert_key_In in Hx as [->|Hx]; [assumption|].
  rewrite Forall_forall in Hl. auto.
Qed.

Lemma insert_key_sorted (d : date) (l : list date) :
  StronglySorted Z.lt l -> StronglySorted Z.lt (insert_key d l).
Proof.
  induction l as [|y t IH]; intros Hs; cbn [insert_key].
  - repeat constructor.
  - inversion Hs; subst. destruct (d ?= y) eqn:E.
    + exact Hs.
    + rewrite Z.compare_lt_iff in E. constructor; [exact Hs|].
      constructor; [exact E|].
      eapply Forall_impl; [|eassumption]. cbn. intros; lia.
    + rewrite Z.compare_gt_iff in E. constructor; [auto|].
      apply insert_key_Forall; [lia|assumption].
Qed.

Lemma group_keys_In (df : list row) (d : date) :
  In d (group_keys df) <-> In d (map Date df).
Proof.
  unfold group_keys. induction (map Date df) as [|x t IH];
    cbn [fold_right In]; [reflexivity|].
  rewrite insert_key_In, IH. intuition.
Qed.

Lemma group_keys_sorted (df : list row) : StronglySorted Z.lt (group_keys df).
Proof.
  unfold group_keys. induction (map Date df) as [|x t IH];
    cbn [fold_right]; [constructor|].
  now apply insert_key_sorted.
Qed.

Lemma groupby_dates (df : list row) :
  map Date (groupby_Date_sum df) = group_keys df.
Proof.
  unfold groupby_Date_sum. rewrite map_map. cbn [Date]. apply map_id.
Qed.

Lemma groupby_strictly_increasing (df : list row) :
  strictly_increasing (groupby_Date_sum df).
Proof.
  unfold strictly_increasing. rewrite groupby_dates. apply group_keys_sorted.
Qed.

Lemma groupby_values (df : list row) (r : row) :
  In r (groupby_Date_sum df) ->
  In (Date r) (map Date df) /\
  values r = sum_columns (width df) (group (Date r) df).
Proof.
  unfold groupby_Date_sum. rewrite in_map_iff. intros (d & <- & Hd).
  cbn [Date values]. split; [|reflexivity]. now apply group_keys_In.
Qed.

Lemma sum_columns_col (w j : nat) (g : list row) :
  (j < w)%nat ->
  nth j (sum_columns w g) nan = Num.nansum (map (col j) g).
Proof.
  intros Hj. unfold sum_columns.
  rewrite (nth_indep _ nan (Num.nansum (map (col 0%nat) g)))
    by now rewrite length_map, length_seq.
  rewrite (map_nth (fun j => Num.nansum (map (col j) g)) (seq 0 w) 0%nat j).
  now rewrite seq_nth.
Qed.

(** *** The two branches of the aggregation *)

Lemma empty_where (p : row -> bool) (df : list row) :
  empty (where_ p df) = negb (existsb p df).
Proof.
  unfold where_. induction df as [|r t IH]; [reflexivity|].
  cbn [filter existsb]. destruct (p r); [reflexivity|exact IH].
Qed.

Lemma where_not_Statewide_all (df : list row) :
  existsb is_Statewide df = false -> where_ not_Statewide df = df.
Proof.
  unfold where_, not_Statewide. induction df as [|r t IH]; [reflexivity|].
  cbn [existsb filter]. intros H. apply orb_false_iff in H as [-> Ht].
  cbn [negb]. now rewrite IH.
Qed.

Lemma sentinel_branch (df : list row) :
  existsb is_Statewide df = true ->
  plot_statewide_trend df = sort_values (where_ is_Statewide df).
Proof.
  intros H. unfold plot_statewide_trend.
  now rewrite empty_where, H.
Qed.

Lemma fallback_branch (df : list row) :
  existsb is_Statewide df = false ->
  plot_statewide_trend df = groupby_Date_sum df.
Proof.
  intros H. unfold plot_statewide_trend.
  rewrite empty_where, H. cbn [negb].
  rewrite (where_not_Statewide_all _ H).
  apply sort_values_sorted_id, strictly_increasing_nondecreasing,
    groupby_strictly_increasing.
Qed.

Lemma sorted_nodup_strict (l : list date) :
  StronglySorted Z.le l -> NoDup l -> StronglySorted Z.lt l.
Proof.
  induction l as [|a t IH]; intros Hs Hn; [constructor|].
  inversion Hs; subst. inversion Hn; subst.
  constructor; [auto|].
  rewrite Forall_forall in *. intros x Hx.
  specialize (H2 x Hx). assert (x <> a) by congruence. lia.
Qed.

Lemma In_Statewide_dates (df : list row) (d : date) :
  In d (map Date (where_ is_Statewide df)) <->
  existsb is_Statewide (group d df) = true.
Proof.
  unfold where_, group. rewrite in_map_iff, existsb_exists. split.
  - intros (r & <- & Hr). apply filter_In in Hr as [Hin Hs].
    exists r. split; [|exact Hs].
    apply filter_In. split; [exact Hin|apply Z.eqb_refl].
  - intros (r & Hr & Hs). apply filter_In in Hr as [Hin Hd].
    apply Z.eqb_eq in Hd. exists r. split; [exact Hd|].
    apply filter_In. now split.
Qed.

(** *** Example frames *)

Definition Jan14 : date := month_start 2014 1.
Definition Feb14 : date := month_start 2014 2.

(** A Statewide row in January, county rows only in February. *)
Definition df_mixed : list row :=
  [ mkRow Jan14 "Statewide" [100; 250; 5]%float;
    mkRow Feb14 "Alameda" [10; 25; 4]%float;
    mkRow Feb14 "Alpine" [20; 45; 6]%float ].

(** County rows only. *)
Definition df_counties : list row :=
  [ mkRow Jan14 "Alameda" [10; 25; 5]%float;
    mkRow Feb14 "Alameda" [11; 26; 4]%float;
    mkRow Jan14 "Alpine" [20; 45; 7]%float ].

(** The Statewide row of January delivered twice. *)
Definition df_repeated : list row :=
  [ mkRow Jan14 "Statewide" [100; 250; 5]%float;
    mkRow Jan14 "Statewide" [100; 250; 5]%float ].

Definition raw_repeated : list raw_row :=
  [ mkRaw (Some Jan14) "Statewide" [Loader.Text "1,000"; Loader.Text "5%"];
    mkRaw (Some Jan14) "Statewide" [Loader.Text "1,000"; Loader.Text "5%"] ].

Example plot_statewide_trend_mixed :
  plot_statewide_trend df_mixed =
  [ mkRow Jan14 "Statewide" [100; 250; 5]%float ].
Proof. reflexivity. Qed.

Example plot_statewide_trend_counties :
  plot_statewide_trend df_counties =
  [ mkRow Jan14 "AlamedaAlpine" [30; 70; 12]%float;
    mkRow Feb14 "Alameda" [11; 26; 4]%float ].
Proof. reflexivity. Qed.

(** *** C1 *)

(** C1, as stated, fails: with a Statewide row in January only, February
    (county rows only) is not summed, it is absent from the result. *)
Lemma per_period_choice_fails :
  ~ per_period_choice df_mixed (plot_statewide_trend df_mixed).
Proof.
  intros H. specialize (H Feb14).
  assert (Hin : In Feb14 (map Date df_mixed)) by (cbn; auto).
  specialize (H Hin). cbn in H.
  destruct H as (r & [<-|[]] & Hd & _). discriminate Hd.
Qed.

(** C1, amended: the choice between the Statewide rows and the sums is made
    once for the whole frame.  If any row is labelled Statewide, the result
    is those rows and nothing else, so a period appears exactly when it has
    a Statewide row; if none is, every period of the frame appears once,
    with the column sums of its rows. *)
Theorem statewide_choice_is_global (df : list row) :
  (existsb is_Statewide df = true ->
     Permutation (plot_statewide_trend df) (where_ is_Statewide df) /\
     (forall d, In d (map Date (plot_statewide_trend df)) <->
                existsb is_Statewide (group d df) = true)) /\
  (existsb is_Statewide df = false ->
     map Date (plot_statewide_trend df) = group_keys df /\
     (forall d, In d (map Date df) ->
        exists r, In r (plot_statewide_trend df) /\ Date r = d /\
          values r = sum_columns (width df) (group d df))).
Proof.
  split; intros H.
  - rewrite (sentinel_branch _ H).
    assert (P := sort_values_perm (where_ is_Statewide df)).
    split; [exact P|]. intros d. rewrite <- In_Statewide_dates.
    split; apply Permutation_in, Permutation_map;
      [exact P|symmetry; exact P].
  - rewrite (fallback_branch _ H). split; [apply groupby_dates|].
    intros d Hd. apply group_keys_In in Hd.
    exists (mkRow d (sum_labels (group d df))
                  (sum_columns (width df) (group d df))).
    split; [|split; reflexivity].
    unfold groupby_Date_sum. apply in_map_iff. now exists d.
Qed.

Lemma statewide_choice_is_global_witness :
  Permutation (plot_statewide_trend df_mixed) (where_ is_Statewide df_mixed) /\
  map Date (plot_statewide_trend df_counties) = [Jan14; Feb14].
Proof.
  split.
  - apply (proj1 (statewide_choice_is_global df_mixed)). reflexivity.
  - apply (proj2 (statewide_choice_is_global df_counties)). reflexivity.
Defined.

(** *** C7 *)

(** C7, as stated, fails: two Statewide rows of one month are both kept, by
    [plot_statewide_trend] and by [load_data] alike. *)
Lemma repeated_period_not_increasing :
  ~ strictly_increasing (plot_statewide_trend df_repeated) /\
  ~ strictly_increasing (load_data Loader.parse_integer raw_repeated).
Proof.
  split; intros H; apply strictly_increasing_NoDup in H;
    cbn in H; inversion H as [|? ? Hn _]; apply Hn; now left.
Qed.

(** C7, amended: the timestamps of the aggregated series are non-decreasing
    in series order; they are strictly increasing, hence unique, when the
    series is the fallback sum (no Statewide row in the frame) and whenever
    no two Statewide rows of the frame share a period. *)
Theorem statewide_dates_ordered (df : list row) :
  nondecreasing (plot_statewide_trend df) /\
  (existsb is_Statewide df = false ->
     strictly_increasing (plot_statewide_trend df)) /\
  (NoDup (map Date (where_ is_Statewide df)) ->
     strictly_increasing (plot_statewide_trend df)).
Proof.
  assert (F : existsb is_Statewide df = false ->
              strictly_increasing (plot_statewide_trend df)).
  { intros H. rewrite (fallback_branch _ H).
    apply groupby_strictly_increasing. }
  split; [|split; [exact F|]].
  - unfold plot_statewide_trend. apply sort_values_sorted.
  - intros Hn. destruct (existsb is_Statewide df) eqn:H; [|now apply F].
    rewrite (sentinel_branch _ H).
    apply sorted_nodup_strict; [apply sort_values_sorted|].
    eapply Permutation_NoDup; [|exact Hn].
    apply Permutation_map. symmetry. apply sort_values_perm.
Qed.

Lemma statewide_dates_ordered_witness :
  strictly_increasing (plot_statewide_trend df_counties) /\
  strictly_increasing (plot_statewide_trend df_mixed).
Proof.
  split.
  - apply (proj1 (proj2 (statewide_dates_ordered df_counties))). reflexivity.
  - apply (proj2 (proj2 (statewide_dates_ordered df_mixed))).
    cbn. repeat constructor. intros [].
Defined.

(** *** C10 *)

(** C10: with no Statewide row anywhere, every numeric column of an
    aggregated row is the sum of that column over the (non-Statewide) rows
    of its period - the ['Unemployment Monthly'] rate like the counts. *)
Theorem fallback_sums_every_column (df : list row) (j : nat) (r : row) :
  existsb is_Statewide df = false ->
  (j < width df)%nat ->
  In r (plot_statewide_trend df) ->
  col j r =
  Num.nansum (map (col j) (group (Date r) (where_ not_Statewide df))).
Proof.
  intros H Hj Hr. rewrite (fallback_branch _ H) in Hr.
  rewrite (where_not_Statewide_all _ H).
  apply groupby_values in Hr as [_ Hv].
  unfold col at 1. rewrite Hv. now apply sum_columns_col.
Qed.

(** The unemployment rates 5 and 7 of two counties give a statewide 12,
    where their average is 6. *)
Lemma fallback_sums_every_column_witness :
  col 2 (mkRow Jan14 "AlamedaAlpine" [30; 70; 12]%float) = 12%float /\
  Num.mean [5; 7]%float = 6%float.
Proof.
  split; [|reflexivity].
  apply (fallback_sums_every_column df_counties 2
           (mkRow Jan14 "AlamedaAlpine" [30; 70; 12]%float)).
  - reflexivity.
  - cbn. lia.
  - cbn. left. reflexivity.
Defined.

(** *** More on the loaders and the aggregation *)

Lemma length_where_le (p : row -> bool) (df : list row) :
  (length (where_ p df) <= length df)%nat.
Proof. apply filter_length_le. Qed.

Lemma length_insert_key (d : date) (l : list date) :
  (length (insert_key d l) <= S (length l))%nat.
Proof.
  induction l as [|x t IH]; cbn [insert_key length]; [lia|].
  destruct (d ?= x); cbn [length]; lia.
Qed.

Lemma length_group_keys (df : list row) :
  (length (group_keys df) <= length df)%nat.
Proof.
  unfold group_keys. induction df as [|r t IH]; [cbn; lia|].
  cbn [map fold_right length].
  pose proof (length_insert_key (Date r) (fold_right insert_key [] (map Date t))).
  lia.
Qed.

Lemma length_sort_values (df : list row) :
  length (sort_values df) = length df.
Proof. apply Permutation_length, sort_values_perm. Qed.

Lemma length_plot_statewide_trend (df : list row) :
  (length (plot_statewide_trend df) <= length df)%nat.
Proof.
  unfold plot_statewide_trend. rewrite length_sort_values.
  destruct (empty (where_ is_Statewide df)).
  - unfold groupby_Date_sum. rewrite length_map.
    pose proof (length_group_keys (where_ not_Statewide df)).
    pose proof (length_where_le not_Statewide df). lia.
  - apply length_where_le.
Qed.

Lemma length_load_and_clean_data
    (to_numeric : string -> option float) (df_subset : list raw_row) :
  length (load_and_clean_data to_numeric df_subset) =
  length (filter (fun r => match raw_Date r with
                           | Some _ => true
                           | None => false
                           end) df_subset).
Proof.
  unfold load_and_clean_data.
  induction df_subset as [|r t IH]; [reflexivity|].
  cbn [flat_map filter]. destruct (raw_Date r); cbn [app length]; now rewrite IH.
Qed.

(** X4: the loaders never invent rows.  [load_and_clean_data] returns as
    many rows as the file has parsed dates, all of them exactly when no
    date failed to parse, and [load_data] returns at most as many rows as
    the file has. *)
Theorem loaders_never_add_rows
    (to_numeric : string -> option float) (df_subset : list raw_row) :
  (length (load_and_clean_data to_numeric df_subset) <= length df_subset)%nat /\
  (length (load_and_clean_data to_numeric df_subset) = length df_subset <->
   Forall (fun r => raw_Date r <> None) df_subset) /\
  (length (load_data to_numeric df_subset) <= length df_subset)%nat.
Proof.
  rewrite length_load_and_clean_data.
  set (parsed := fun r : raw_row =>
                   match raw_Date r with Some _ => true | None => false end).
  assert (L : (length (filter parsed df_subset) <= length df_subset)%nat)
    by apply filter_length_le.
  split; [exact L|]. split.
  - split.
    + intros E. apply Forall_forall. intros r Hr Hn.
      assert (F : filter parsed df_subset = df_subset).
      { clear Hr Hn L. induction df_subset as [|x t IH]; [reflexivity|].
        cbn [filter length] in *.
        pose proof (filter_length_le parsed t).
        destruct (parsed x); cbn [length] in E; [|lia].
        f_equal. apply IH. lia. }
      rewrite <- F in Hr. apply filter_In in Hr as [_ Hp].
      unfold parsed in Hp. now rewrite Hn in Hp.
    + intros F. f_equal. apply forallb_filter_id. apply forallb_forall.
      intros r Hr. rewrite Forall_forall in F. specialize (F r Hr).
      unfold parsed. now destruct (raw_Date r).
  - rewrite load_data_aggregates.
    pose proof (length_plot_statewide_trend (df_clean to_numeric df_subset)).
    unfold df_clean in *.
    pose proof (length_where_le (fun r => negb (Num.isnan (Households r)))
                  (load_and_clean_data to_numeric df_subset)).
    rewrite length_load_and_clean_data in *. fold parsed in H0. lia.
Qed.

Lemma where_all (p : row -> bool) (df : list row) :
  Forall (fun r => p r = true) df -> where_ p df = df.
Proof.
  intros H. apply forallb_filter_id. apply forallb_forall.
  now apply Forall_forall.
Qed.

Lemma Forall_where (p : row -> bool) (df : list row) :
  Forall (fun r => p r = true) (where_ p df).
Proof.
  apply Forall_forall. intros r Hr. now apply filter_In in Hr.
Qed.

(** Two date-ordered lists with the same dates, each as often, are the same
    list of dates. *)
Lemma sorted_perm_eq (l1 l2 : list date) :
  StronglySorted Z.le l1 -> StronglySorted Z.le l2 ->
  Permutation l1 l2 -> l1 = l2.
Proof.
  revert l2. induction l1 as [|a t1 IH]; intros l2 S1 S2 P.
  - now apply Permutation_nil in P.
  - destruct l2 as [|b t2];
      [apply Permutation_sym, Permutation_nil in P; discriminate P|].
    inversion S1 as [|? ? St1 Ha]; subst. inversion S2 as [|? ? St2 Hb]; subst.
    rewrite Forall_forall in Ha, Hb.
    assert (Hab : a <= b).
    { assert (I : In b (a :: t1))
        by (apply (Permutation_in _ (Permutation_sym P)); now left).
      destruct I as [->|I]; [lia|now apply Ha]. }
    assert (Hba : b <= a).
    { assert (I : In a (b :: t2)) by (apply (Permutation_in _ P); now left).
      destruct I as [->|I]; [lia|now apply Hb]. }
    assert (E : a = b) by lia. subst b. f_equal.
    apply IH; try assumption. now apply Permutation_cons_inv in P.
Qed.

(** Rows with distinct dates are fixed by the order of their dates. *)
Lemma perm_same_dates_eq (l1 l2 : list row) :
  Permutation l1 l2 -> map Date l1 = map Date l2 ->
  NoDup (map Date l1) -> l1 = l2.
Proof.
  revert l2. induction l1 as [|a t1 IH]; intros l2 P E N.
  - now apply Permutation_nil in P.
  - destruct l2 as [|b t2]; [discriminate E|].
    cbn [map] in E, N. injection E as Eab Et.
    inversion N as [|? ? Hn Nt]; subst.
    assert (I : In a (b :: t2)) by (apply (Permutation_in _ P); now left).
    destruct I as [<-|I].
    + f_equal. apply IH; try assumption.
      now apply Permutation_cons_inv in P.
    + exfalso. apply Hn. rewrite Et. now apply in_map.
Qed.

(** X5: on a frame with a Statewide row, aggregating again changes nothing
    but, possibly, the order of rows of one date: the statewide frame handed
    on by [plot_statewide_trend] and its second aggregation hold the same
    rows and the same column of dates, and are the same frame when no two
    Statewide rows share a date.  This holds whatever order the sort gives
    to rows of one date. *)
Theorem plot_statewide_trend_idempotent (df : list row) :
  existsb is_Statewide df = true ->
  Permutation (plot_statewide_trend (plot_statewide_trend df))
              (plot_statewide_trend df) /\
  map Date (plot_statewide_trend (plot_statewide_trend df)) =
    map Date (plot_statewide_trend df) /\
  (NoDup (map Date (where_ is_Statewide df)) ->
     plot_statewide_trend (plot_statewide_trend df) =
     plot_statewide_trend df).
Proof.
  intros H. rewrite (sentinel_branch _ H).
  set (out := sort_values (where_ is_Statewide df)).
  assert (Po : Permutation out (where_ is_Statewide df))
    by apply sort_values_perm.
  assert (F : Forall (fun r => is_Statewide r = true) out).
  { apply Forall_forall. intros r Hr.
    apply (Permutation_in _ Po) in Hr. now apply filter_In in Hr. }
  assert (N : existsb is_Statewide out = true).
  { apply existsb_exists in H as (r & Hr & Hs).
    apply existsb_exists. exists r. split; [|exact Hs].
    apply (Permutation_in _ (Permutation_sym Po)).
    apply filter_In. now split. }
  rewrite (sentinel_branch _ N), (where_all _ _ F).
  assert (P : Permutation (sort_values out) out) by apply sort_values_perm.
  assert (D : map Date (sort_values out) = map Date out).
  { apply sorted_perm_eq.
    - apply sort_values_sorted.
    - apply sort_values_sorted.
    - now apply Permutation_map. }
  split; [exact P|]. split; [exact D|].
  intros Hn. apply perm_same_dates_eq; try assumption.
  rewrite D. apply (Permutation_NoDup (l := map Date (where_ is_Statewide df)));
    [|exact Hn].
  apply Permutation_map. now symmetry.
Qed.

Lemma plot_statewide_trend_idempotent_witness :
  plot_statewide_trend (plot_statewide_trend df_mixed) =
    plot_statewide_trend df_mixed /\
  Permutation (plot_statewide_trend (plot_statewide_trend df_repeated))
              (plot_statewide_trend df_repeated).
Proof.
  split.
  - apply (plot_statewide_trend_idempotent df_mixed); [reflexivity|].
    cbn. repeat constructor. intros [].
  - apply (plot_statewide_trend_idempotent df_repeated). reflexivity.
Defined.

(** X6: when the file has a Statewide row with a household count,
    [load_data] returns only rows labelled Statewide whose household count
    is present. *)
Theorem load_data_statewide_rows_complete
    (to_numeric : string -> option float) (df_subset : list raw_row) :
  existsb is_Statewide (df_clean to_numeric df_subset) = true ->
  Forall (fun r => is_Statewide r = true /\ Num.isnan (Households r) = false)
         (load_data to_numeric df_subset).
Proof.
  intros H. rewrite load_data_aggregates, (sentinel_branch _ H).
  apply Forall_forall. intros r Hr.
  apply (Permutation_in _ (sort_values_perm _)) in Hr.
  apply filter_In in Hr as [Hr Hs]. split; [exact Hs|].
  unfold df_clean in Hr. apply filter_In in Hr as [_ Hn].
  now apply negb_true_iff in Hn.
Qed.

Definition raw_partial : list raw_row :=
  [ mkRaw (Some Jan14) "Statewide" [Loader.Text "1,000"; Loader.Text "5%"];
    mkRaw (Some Feb14) "Statewide" [Loader.Text "*"; Loader.Text "6%"];
    mkRaw None "Statewide" [Loader.Text "1,200"; Loader.Text "7%"] ].

Lemma load_data_statewide_rows_complete_witness :
  Forall (fun r => is_Statewide r = true /\ Num.isnan (Households r) = false)
         (load_data Loader.parse_integer raw_partial) /\
  length (load_data Loader.parse_integer raw_partial) = 1%nat.
Proof.
  split; [|reflexivity].
  apply load_data_statewide_rows_complete. reflexivity.
Defined.

End Statewide.

(** ** Monthly series: [asfreq('MS')], [interpolate()], [pct_change()] *)

Module TimeSeries.

Import Frame.

(** A pandas Series indexed by date, in index order. *)
Definition series : Type := list (date * float).

Definition index (s : series) : list date := map fst s.
Definition data (s : series) : list float := map snd s.

(** [df.set_index('Date')['CalFresh Households']] *)
Definition Households_series (df : list row) : series :=
  map (fun r => (Date r, Households r)) df.

Open Scope Z_scope.

Fixpoint has_duplicates (l : list date) : bool :=
  match l with
  | [] => false
  | d :: t => existsb (Z.eqb d) t || has_duplicates t
  end.

Definition index_min (d : date) (l : list date) : date := fold_left Z.min l d.
Definition index_max (d : date) (l : list date) : date := fold_left Z.max l d.

(** [pd.date_range(lo, hi, freq='MS')] between two month starts. *)
Definition date_range (lo hi : date) : list date :=
  map (fun k => lo + Z.of_nat k) (seq 0 (Z.to_nat (hi - lo + 1))).

Fixpoint loc (d : date) (s : series) : option float :=
  match s with
  | [] => None
  | (d', v) :: t => if d' =? d then Some v else loc d t
  end.

(** [s.asfreq('MS')]: the series reindexed on every month start from its
    first to its last date, months without a row holding NaN.  An empty
    series stays empty; an index with a repeated date cannot be reindexed,
    pandas raises [ValueError: cannot reindex on an axis with duplicate
    labels]. *)
Definition asfreq_MS (s : series) : result series :=
  match index s with
  | [] => Ok []
  | d :: t =>
      if has_duplicates (d :: t) then Raise ValueError
      else Ok (map (fun m => (m, match loc m s with
                                 | Some v => v
                                 | None => nan
                                 end))
                   (date_range (index_min d t) (index_max d t)))
  end.

Open Scope float_scope.

(** Distance to, and value of, the first value present in [l]. *)
Fixpoint next_valid (l : list float) : option (nat * float) :=
  match l with
  | [] => None
  | x :: t =>
      if Num.isnan x
      then match next_valid t with
           | Some (n, v) => Some (S n, v)
           | None => None
           end
      else Some (O, x)
  end.

(** [interpolate()] with its defaults (linear, forward): a missing value
    between two present ones lies on the line through them, positions being
    equally spaced; missing values after the last present one repeat it;
    missing values before the first present one stay missing.  [prev] is the
    distance back to the last present value, and that value. *)
Fixpoint interpolate_from (prev : option (nat * float)) (l : list float)
  : list float :=
  match l with
  | [] => []
  | x :: t =>
      if Num.isnan x then
        let v :=
          match prev with
          | None => nan
          | Some (back, a) =>
              match next_valid t with
              | Some (fwd, b) =>
                  (b - a) / Num.of_nat (back + S fwd) * Num.of_nat back + a
              | None => a
              end
          end in
        v :: interpolate_from
               (match prev with
                | Some (back, a) => Some (S back, a)
                | None => None
                end) t
      else x :: interpolate_from (Some (1%nat, x)) t
  end.

Definition interpolate (s : series) : series :=
  combine (index s) (interpolate_from None (data s)).

(** [s.fillna(method='pad')]: a missing value takes the last value present
    before it; missing values before the first present one stay missing. *)
Fixpoint ffill_from (prev : float) (l : list float) : list float :=
  match l with
  | [] => []
  | x :: t =>
      let filled := if Num.isnan x then prev else x in
      filled :: ffill_from filled t
  end.

Definition ffill (l : list float) : list float := ffill_from nan l.

(** [data / data.shift(1) - 1], undefined (NaN) for the first entry. *)
Fixpoint pct_change_from (prev : float) (l : list float) : list float :=
  match l with
  | [] => []
  | x :: t => (x / prev - 1) :: pct_change_from x t
  end.

(** [Series.pct_change()] with its defaults in pandas 1 and 2
    ([fill_method='pad']): the missing values are padded first. *)
Definition pct_change (l : list float) : list float :=
  pct_change_from nan (ffill l).


(** *** Facts *)

Lemma has_duplicates_NoDup (l : list date) :
  has_duplicates l = false <-> NoDup l.
Proof.
  induction l as [|d t IH]; cbn [has_duplicates].
  - split; [constructor|reflexivity].
  - rewrite orb_false_iff, IH. split.
    + intros [He Hn]. constructor; [|exact Hn].
      intros Hin. apply not_true_iff_false in He. apply He.
      apply existsb_exists. exists d. split; [exact Hin|apply Z.eqb_refl].
    + intros H. inversion H as [|? ? Hin Hn]; subst. split; [|exact Hn].
      apply not_true_iff_false. intros He. apply existsb_exists in He.
      destruct He as (x & Hx & E). apply Z.eqb_eq in E. now subst.
Qed.

Lemma map_fst_combine {A B : Type} (l : list A) (l' : list B) :
  length l = length l' -> map fst (combine l l') = l.
Proof.
  revert l'. induction l as [|a t IH]; intros [|b t'] H;
    try reflexivity; try discriminate H.
  cbn [combine map fst]. f_equal. apply IH. now injection H.
Qed.

Lemma length_interpolate_from (prev : option (nat * float)) (l : list float) :
  length (interpolate_from prev l) = length l.
Proof.
  revert prev. induction l as [|x t IH]; intros prev; [reflexivity|].
  cbn [interpolate_from]. destruct (Num.isnan x); cbn [length]; now rewrite IH.
Qed.

Lemma length_interpolate (s : series) : length (interpolate s) = length s.
Proof.
  unfold interpolate, index, data.
  rewrite length_combine, length_interpolate_from, !length_map.
  apply Nat.min_id.
Qed.

Lemma index_interpolate (s : series) : index (interpolate s) = index s.
Proof.
  unfold interpolate. unfold index at 1. apply map_fst_combine.
  unfold index, data. now rewrite length_interpolate_from, !length_map.
Qed.

Lemma length_ffill_from (prev : float) (l : list float) :
  length (ffill_from prev l) = length l.
Proof.
  revert prev. induction l as [|x t IH]; intros prev; [reflexivity|].
  cbn [ffill_from length]. now rewrite IH.
Qed.



Lemma length_pct_change_from (prev : float) (l : list float) :
  length (pct_change_from prev l) = length l.
Proof.
  revert prev. induction l as [|x t IH]; intros prev; [reflexivity|].
  cbn [pct_change_from length]. now rewrite IH.
Qed.


Lemma asfreq_MS_duplicates (s : series) :
  has_duplicates (index s) = true -> asfreq_MS s = Raise ValueError.
Proof.
  unfold asfreq_MS. destruct (index s) as [|d t]; [discriminate|].
  now intros ->.
Qed.

(** Without a repeated date the reindexing succeeds, and the result spans
    every month from the first to the last date. *)
Lemma asfreq_MS_unique (s : series) :
  NoDup (index s) ->
  exists ts, asfreq_MS s = Ok ts /\
    length ts =
    match index s with
    | [] => O
    | d :: t => Z.to_nat (index_max d t - index_min d t + 1)
    end.
Proof.
  intros Hn. apply has_duplicates_NoDup in Hn.
  unfold asfreq_MS. destruct (index s) as [|d t].
  - now exists [].
  - rewrite Hn. eexists. split; [reflexivity|].
    unfold date_range. now rewrite !length_map, length_seq.
Qed.

(** *** What the reindexing and the interpolation keep *)

Lemma fold_min_le (l : list date) (a : date) :
  (fold_left Z.min l a <= a)%Z /\
  forall x, In x l -> (fold_left Z.min l a <= x)%Z.
Proof.
  revert a. induction l as [|y t IH]; intros a; cbn [fold_left].
  - split; [lia|intros x []].
  - destruct (IH (Z.min a y)) as [H1 H2]. split; [lia|].
    intros x [<-|Hx]; [lia|auto].
Qed.

Lemma fold_max_ge (l : list date) (a : date) :
  (a <= fold_left Z.max l a)%Z /\
  forall x, In x l -> (x <= fold_left Z.max l a)%Z.
Proof.
  revert a. induction l as [|y t IH]; intros a; cbn [fold_left].
  - split; [lia|intros x []].
  - destruct (IH (Z.max a y)) as [H1 H2]. split; [lia|].
    intros x [<-|Hx]; [lia|auto].
Qed.

Lemma index_bounds (d : date) (t : list date) (x : date) :
  In x (d :: t) -> (index_min d t <= x <= index_max d t)%Z.
Proof.
  unfold index_min, index_max.
  destruct (fold_min_le t d) as [m1 m2], (fold_max_ge t d) as [M1 M2].
  intros [<-|Hx]; [lia|]. split; auto.
Qed.

Lemma In_date_range (lo hi d : date) :
  In d (date_range lo hi) <-> (lo <= d <= hi)%Z.
Proof.
  unfold date_range. rewrite in_map_iff. split.
  - intros (k & <- & Hk). apply in_seq in Hk. lia.
  - intros H. exists (Z.to_nat (d - lo)). split; [lia|].
    apply in_seq. lia.
Qed.


Lemma loc_In (s : series) (d : date) (v : float) :
  NoDup (index s) -> In (d, v) s -> loc d s = Some v.
Proof.
  unfold index. induction s as [|[d' v'] t IH]; intros Hn Hin; [easy|].
  cbn [map fst] in Hn. inversion Hn as [|? ? Hd Ht]; subst.
  cbn [loc]. destruct Hin as [E|Hin].
  - injection E as -> ->. now rewrite Z.eqb_refl.
  - destruct (d' =? d)%Z eqn:E; [|now apply IH].
    apply Z.eqb_eq in E. subst d'. exfalso. apply Hd.
    apply in_map_iff. now exists (d, v).
Qed.

Lemma asfreq_MS_Ok_NoDup (s ts : series) :
  asfreq_MS s = Ok ts -> NoDup (index s).
Proof.
  unfold asfreq_MS. destruct (index s) as [|d t] eqn:E; [constructor|].
  destruct (has_duplicates (d :: t)) eqn:H; [discriminate|].
  intros _. now apply has_duplicates_NoDup.
Qed.


(** Reindexing on month starts loses no observation: every (date, value)
    of the series is in the reindexed series. *)
Lemma asfreq_MS_keeps_observations (s ts : series) (d : date) (v : float) :
  asfreq_MS s = Ok ts -> In (d, v) s -> In (d, v) ts.
Proof.
  intros H Hin. pose proof (asfreq_MS_Ok_NoDup _ _ H) as Hn.
  pose proof (loc_In _ _ _ Hn Hin) as Hl.
  assert (Hd : In d (index s)) by (apply in_map_iff; now exists (d, v)).
  unfold asfreq_MS in H. destruct (index s) as [|d0 t]; [easy|].
  destruct (has_duplicates (d0 :: t)); [discriminate|].
  injection H as <-. apply in_map_iff. exists d. rewrite Hl.
  split; [reflexivity|]. apply In_date_range. now apply index_bounds.
Qed.

Lemma nth_interpolate_from_present
    (l : list float) (prev : option (nat * float)) (i : nat) :
  Num.isnan (nth i l nan) = false ->
  nth i (interpolate_from prev l) nan = nth i l nan.
Proof.
  revert prev i. induction l as [|x t IH]; intros prev i H.
  - destruct i; discriminate H.
  - destruct i as [|k]; cbn [nth] in H.
    + cbn [interpolate_from]. now rewrite H.
    + cbn [interpolate_from]. destruct (Num.isnan x); cbn [nth]; now apply IH.
Qed.

(** Interpolation never changes an observation: a value that is present
    stays at its date with its value; the index and the length of the
    series stay as they are. *)
Lemma interpolate_keeps_observations (s : series) (d : date) (v : float) :
  In (d, v) s -> Num.isnan v = false ->
  In (d, v) (interpolate s) /\
  index (interpolate s) = index s /\
  length (interpolate s) = length s.
Proof.
  intros Hin Hv.
  split; [|split; [apply index_interpolate|apply length_interpolate]].
  destruct (In_nth _ _ (0%Z, nan) Hin) as (i & Hi & Hnth).
  assert (Hd : nth i (index s) 0%Z = d).
  { exact (eq_trans (map_nth fst s (0%Z, nan) i) (f_equal fst Hnth)). }
  assert (Hx : nth i (data s) nan = v).
  { exact (eq_trans (map_nth snd s (0%Z, nan) i) (f_equal snd Hnth)). }
  assert (E : nth i (interpolate s) (0%Z, nan) = (d, v)).
  { unfold interpolate. rewrite combine_nth.
    - apply f_equal2; [exact Hd|].
      rewrite nth_interpolate_from_present; [exact Hx|now rewrite Hx].
    - unfold index, data. now rewrite length_interpolate_from, !length_map. }
  rewrite <- E. apply nth_In. now rewrite length_interpolate.
Qed.

End TimeSeries.

(** ** Spike detection and seasonality ([food_bank_analysis.py],
       [google_colab_script.py]) *)

Module Analyzer.

Import Frame TimeSeries.
Open Scope float_scope.

(** [df['MoM_Change'] = df['CalFresh Households'].pct_change()] *)
Definition MoM_Change (df : list row) : list float :=
  pct_change (map Households df).

(** [df['MoM_Zscore'] =
      (df['MoM_Change'] - df['MoM_Change'].mean()) / df['MoM_Change'].std()] *)
Definition MoM_Zscore (df : list row) : list float :=
  let change := MoM_Change df in
  map (fun c => (c - Num.mean change) / Num.std change) change.

(** [spikes = df[df['MoM_Zscore'] > 2]], the frame [analyze_spikes] prints
    and plots. *)
Definition analyze_spikes (df : list row) : list row :=
  map fst (filter (fun rz => 2 <? snd rz) (combine df (MoM_Zscore df))).

(** *** The same, period by period, in the words of the specification *)








(** *** Seasonality *)

(** What [seasonal_decompose] returns. *)
Record decomposition : Type := mkDecomposition {
  trend : list float;
  seasonal : list float;
  resid : list float
}.

(** What a call of [analyze_seasonality] that returns has done. *)
Inductive seasonality_report : Type :=
| Not_enough_data
| Decomposed (d : decomposition)
| Decomposition_error.

Definition warning_line : string :=
  String "010"
    "Warning: Not enough data for seasonal decomposition (need > 2 years)."%string.

(** The lines the report stands for on standard output, the error text and
    the seasonal index left symbolic. *)
Definition stdout (r : seasonality_report) : list string :=
  match r with
  | Not_enough_data => [warning_line]
  | Decomposed _ =>
      ["Saved plot to: seasonality_decomposition.png";
       "Seasonal Peak Month"; "Seasonal Index by Month:"]%string
  | Decomposition_error => ["Error in seasonality analysis"]%string
  end.

Definition decomposition_attempted (r : result seasonality_report) : bool :=
  match r with
  | Ok (Decomposed _) | Ok Decomposition_error => true
  | _ => false
  end.

Section Seasonality.

(** [seasonal_decompose(x, model='additive', period=p)]; [None] when it
    raises. *)
Variable seasonal_decompose : list float -> nat -> option decomposition.

(** [analyze_seasonality]: the reindexing and the interpolation come first
    and are outside the [try]; then the length guard; the decomposition runs
    inside the [try], whose handler prints the error. *)
Definition analyze_seasonality (df : list row) : result seasonality_report :=
  df_ts <- asfreq_MS (Households_series df) ;;
  let df_ts := interpolate df_ts in
  if (length df_ts <? 24)%nat then Ok Not_enough_data
  else
    match seasonal_decompose (data df_ts) 12 with
    | Some decomp => Ok (Decomposed decomp)
    | None => Ok Decomposition_error
    end.

End Seasonality.

(** *** Selecting rows by a mask *)




Lemma length_MoM_Zscore (df : list row) : length (MoM_Zscore df) = length df.
Proof.
  unfold MoM_Zscore, MoM_Change, pct_change, ffill.
  now rewrite length_map, length_pct_change_from, length_ffill_from,
    length_map.
Qed.



(** *** C2 *)


(** A synthetic series with one deliberate outlier: steady growth of one
    household a month, and a jump from 109 to 200 in the eleventh month. *)
Definition synthetic_series : list row :=
  map (fun dv => mkRow (fst dv) "Statewide" [snd dv])
      (combine (date_range (month_start 2014 1) (month_start 2014 12))
               [100; 101; 102; 103; 104; 105; 106; 107; 108; 109; 200; 201]).

Example analyze_spikes_synthetic :
  analyze_spikes synthetic_series =
  [ mkRow (month_start 2014 11) "Statewide" [200] ].
Proof. vm_compute. reflexivity. Qed.

(** The same series with the count of October missing: the change of
    October is 0, the change of November is taken from September, and
    November is flagged all the same. *)
Definition synthetic_series_with_gap : list row :=
  map (fun dv => mkRow (fst dv) "Statewide" [snd dv])
      (combine (date_range (month_start 2014 1) (month_start 2014 12))
               [100; 101; 102; 103; 104; 105; 106; 107; 108; nan; 200; 201]).

Example analyze_spikes_synthetic_with_gap :
  analyze_spikes synthetic_series_with_gap =
    [ mkRow (month_start 2014 11) "Statewide" [200] ] /\
  MoM_Change
    [ mkRow (month_start 2014 9) "Statewide" [108];
      mkRow (month_start 2014 10) "Statewide" [nan];
      mkRow (month_start 2014 11) "Statewide" [216] ] = [nan; 0; 1].
Proof. split; vm_compute; reflexivity. Qed.

(** *** C5 *)

(** The length of the gap-filled monthly series of a frame: every month
    from its first to its last date. *)
Definition months_spanned (df : list row) : nat :=
  match map Date df with
  | [] => O
  | d :: t => Z.to_nat (index_max d t - index_min d t + 1)
  end.

Lemma index_Households_series (df : list row) :
  index (Households_series df) = map Date df.
Proof.
  unfold index, Households_series. rewrite map_map. reflexivity.
Qed.

Lemma analyze_seasonality_unique
    (sd : list float -> nat -> option decomposition) (df : list row) :
  NoDup (map Date df) ->
  exists df_ts,
    asfreq_MS (Households_series df) = Ok df_ts /\
    length df_ts = months_spanned df /\
    analyze_seasonality sd df =
      if (months_spanned df <? 24)%nat then Ok Not_enough_data
      else match sd (data (interpolate df_ts)) 12%nat with
           | Some decomp => Ok (Decomposed decomp)
           | None => Ok Decomposition_error
           end.
Proof.
  intros Hn. rewrite <- index_Households_series in Hn.
  destruct (asfreq_MS_unique _ Hn) as (ts & Hts & Hlen).
  rewrite index_Households_series in Hlen. fold (months_spanned df) in Hlen.
  exists ts. repeat split; [exact Hts|exact Hlen|].
  unfold analyze_seasonality. rewrite Hts. cbn [bind].
  now rewrite length_interpolate, Hlen.
Qed.

(** A decomposer that always raises, to run the examples. *)
Definition no_decomposition : list float -> nat -> option decomposition :=
  fun _ _ => None.

(** C5, as stated, fails: on a frame that spans fewer than 24 months (here
    one: two Statewide rows for January 2014) but holds a period twice, the
    reindexing, which is outside the [try], raises before the length is
    looked at. *)
Lemma seasonality_raises_on_repeated_period :
  months_spanned Statewide.df_repeated = 1%nat /\
  analyze_seasonality no_decomposition
    (Statewide.plot_statewide_trend Statewide.df_repeated) = Raise ValueError.
Proof. split; reflexivity. Qed.

(** C5, amended: for every input series whose timestamps are unique, the
    decomposition is attempted exactly when the gap-filled monthly series
    has at least 24 observations; for a shorter one the analysis returns
    without a decomposition after printing the insufficient-data warning;
    and it never raises. *)
Theorem seasonality_needs_24_months
    (seasonal_decompose : list float -> nat -> option decomposition)
    (df : list row) :
  NoDup (map Date df) ->
  ((months_spanned df < 24)%nat ->
     analyze_seasonality seasonal_decompose df = Ok Not_enough_data /\
     stdout Not_enough_data = [warning_line]) /\
  (decomposition_attempted (analyze_seasonality seasonal_decompose df) = true
     <-> (24 <= months_spanned df)%nat) /\
  raises (analyze_seasonality seasonal_decompose df) = false.
Proof.
  intros Hn.
  destruct (analyze_seasonality_unique seasonal_decompose df Hn)
    as (ts & _ & _ & ->).
  destruct (months_spanned df <? 24)%nat eqn:E.
  - apply Nat.ltb_lt in E. repeat split; intros; try reflexivity;
      try discriminate; lia.
  - apply Nat.ltb_ge in E.
    destruct (seasonal_decompose _ _); repeat split; intros;
      try reflexivity; try lia.
Qed.

(** Rows for January 2014 and January 2016 only: two observations, 25 months
    once the gaps are filled. *)
Definition df_two_years_apart : list row :=
  [ mkRow (month_start 2014 1) "Statewide" [100];
    mkRow (month_start 2016 1) "Statewide" [120] ].

Lemma seasonality_needs_24_months_witness :
  analyze_seasonality no_decomposition
    (Statewide.plot_statewide_trend Statewide.df_counties) =
    Ok Not_enough_data /\
  decomposition_attempted
    (analyze_seasonality no_decomposition df_two_years_apart) = true.
Proof.
  assert (N1 : NoDup (map Date
                (Statewide.plot_statewide_trend Statewide.df_counties)))
    by (cbn; repeat constructor; cbn; intuition discriminate).
  assert (N2 : NoDup (map Date df_two_years_apart))
    by (cbn; repeat constructor; cbn; intuition discriminate).
  split.
  - apply (proj1 (seasonality_needs_24_months no_decomposition _ N1)).
    cbn. lia.
  - apply (proj2 (proj1 (proj2
             (seasonality_needs_24_months no_decomposition _ N2)))).
    cbn. lia.
Defined.

(** *** Periods that cannot be spikes *)

Lemma MoM_Zscore_first (r : row) (t : list row) :
  exists zs, MoM_Zscore (r :: t) = nan :: zs /\ length zs = length t.
Proof.
  pose proof (length_MoM_Zscore (r :: t)) as L.
  unfold MoM_Zscore, MoM_Change, pct_change, ffill in *.
  cbn [map ffill_from pct_change_from] in *.
  rewrite Num.div_nan, !Num.nan_sub, Num.nan_div in *.
  eexists. split; [reflexivity|]. cbn [length] in L. now injection L.
Qed.

Lemma In_mask_select (t : list row) (zs : list float) (x : row) :
  In x (map fst (filter (fun rz => 2 <? snd rz) (combine t zs))) -> In x t.
Proof.
  intros H. apply in_map_iff in H as ([r z] & <- & H).
  apply filter_In in H as [H _]. now apply in_combine_l in H.
Qed.

(** X8: the first period of a series is never flagged as a spike, so there
    are fewer spikes than periods; and on a series of one or two periods,
    where the changes have no standard deviation, nothing is flagged. *)
Theorem first_period_is_never_a_spike (r : row) (t : list row) :
  (forall x, In x (analyze_spikes (r :: t)) -> In x t) /\
  (length (analyze_spikes (r :: t)) <= length t)%nat /\
  ((length t <= 1)%nat -> analyze_spikes (r :: t) = []).
Proof.
  destruct (MoM_Zscore_first r t) as (zs & Hz & Hl).
  assert (E : analyze_spikes (r :: t) =
              map fst (filter (fun rz => 2 <? snd rz) (combine t zs))).
  { unfold analyze_spikes. rewrite Hz. reflexivity. }
  split; [|split].
  - rewrite E. apply In_mask_select.
  - rewrite E, length_map.
    pose proof (filter_length_le (fun rz : row * float => 2 <? snd rz)
                  (combine t zs)).
    rewrite length_combine in H. lia.
  - intros Ht. rewrite E.
    destruct t as [|r2 [|r3 t']]; [reflexivity| |cbn in Ht; lia].
    assert (S : Num.std (MoM_Change [r; r2]) = nan).
    { apply Num.std_short. unfold MoM_Change, pct_change, ffill.
      cbn [map ffill_from pct_change_from]. rewrite Num.div_nan, Num.nan_sub.
      unfold Num.dropna. cbn [filter].
      change (Num.isnan nan) with true. cbn [negb].
      destruct (negb (Num.isnan _)); cbn [length]; lia. }
    assert (Z2 : MoM_Zscore [r; r2] = [nan; nan]).
    { unfold MoM_Zscore. cbv zeta. rewrite S.
      unfold MoM_Change, pct_change, ffill.
      cbn [map ffill_from pct_change_from].
      now rewrite !Num.div_nan. }
    rewrite Z2 in Hz. injection Hz as <-. reflexivity.
Qed.

Lemma first_period_is_never_a_spike_witness :
  analyze_spikes
    [ mkRow (month_start 2014 1) "Statewide" [100];
      mkRow (month_start 2014 2) "Statewide" [900] ] = [].
Proof.
  apply (proj2 (proj2 (first_period_is_never_a_spike
           (mkRow (month_start 2014 1) "Statewide" [100])
           [mkRow (month_start 2014 2) "Statewide" [900]]))).
  cbn. lia.
Defined.

(** *** [investigate_anomaly] *)

(** The window [investigate_anomaly] prints: the rows from 3 months before
    to 3 months after the target date, itself the first day of a month
    (['2019-03-01'] in [main]). *)
Definition investigate_anomaly (df : list row) (target_date : date)
  : list row :=
  let start_date := (target_date - 3)%Z in
  let end_date := (target_date + 3)%Z in
  where_ (fun r => (start_date <=? Date r)%Z && (Date r <=? end_date)%Z) df.

(** X9: on a series with strictly increasing dates the window of
    [investigate_anomaly] holds at most 7 rows, in date order, all of them
    within 3 months of the target; it holds every such row of the series,
    the row of the target month among them. *)
Theorem anomaly_window_is_7_months (df : list row) (target_date : date) :
  strictly_increasing df ->
  (length (investigate_anomaly df target_date) <= 7)%nat /\
  strictly_increasing (investigate_anomaly df target_date) /\
  (forall r, In r (investigate_anomaly df target_date) <->
     In r df /\ (target_date - 3 <= Date r <= target_date + 3)%Z).
Proof.
  intros Hs. unfold investigate_anomaly. cbv zeta.
  set (p := fun r => ((target_date - 3 <=? Date r)%Z
                      && (Date r <=? target_date + 3)%Z)).
  assert (M : forall r, In r (where_ p df) <->
                In r df /\ (target_date - 3 <= Date r <= target_date + 3)%Z).
  { intros r. unfold where_. rewrite filter_In. unfold p.
    rewrite andb_true_iff, !Z.leb_le. reflexivity. }
  assert (S : strictly_increasing (where_ p df))
    by now apply strictly_increasing_where.
  split; [|split; [exact S|exact M]].
  assert (B : Forall (fun x => (target_date - 3 <= x <= target_date + 3)%Z)
                     (map Date (where_ p df))).
  { apply Forall_forall. intros d Hd. apply in_map_iff in Hd as (r & <- & Hr).
    now apply M in Hr. }
  pose proof (strictly_increasing_length _ _ _ S B) as L.
  rewrite length_map in L. lia.
Qed.

Lemma anomaly_window_is_7_months_witness :
  length (investigate_anomaly synthetic_series (month_start 2014 6)) = 7%nat /\
  (length (investigate_anomaly synthetic_series (month_start 2014 1)) <= 7)%nat.
Proof.
  assert (S : strictly_increasing synthetic_series).
  { unfold strictly_increasing. vm_compute.
    repeat (constructor; [|repeat (constructor; [reflexivity|]); constructor]).
    constructor. }
  split; [reflexivity|].
  apply (proj1 (anomaly_window_is_7_months synthetic_series
                  (month_start 2014 1) S)).
Defined.

(** *** Rows and months *)

Lemma months_spanned_ge_rows (df : list row) :
  strictly_increasing df -> (length df <= months_spanned df)%nat.
Proof.
  intros Hs. unfold months_spanned.
  destruct (map Date df) as [|d t] eqn:E.
  - apply (f_equal (@length _)) in E. rewrite length_map in E. cbn in E. lia.
  - assert (B : Forall (fun x => (index_min d t <= x <= index_max d t)%Z)
                       (d :: t)).
    { apply Forall_forall. intros x Hx. now apply index_bounds. }
    unfold strictly_increasing in Hs. rewrite E in Hs.
    pose proof (strictly_increasing_length _ _ _ Hs B) as L.
    rewrite <- E, length_map in L. lia.
Qed.

(** X10: on a series with strictly increasing dates the gap-filled series is
    at least as long as the series, so 24 rows or more always get the
    decomposition attempted; fewer rows do too when they span 24 months. *)
Theorem enough_rows_are_decomposed
    (seasonal_decompose : list float -> nat -> option decomposition)
    (df : list row) :
  strictly_increasing df ->
  (length df <= months_spanned df)%nat /\
  ((24 <= length df)%nat ->
     decomposition_attempted (analyze_seasonality seasonal_decompose df)
       = true).
Proof.
  intros Hs. pose proof (months_spanned_ge_rows _ Hs) as L.
  split; [exact L|]. intros H24.
  destruct (analyze_seasonality_unique seasonal_decompose df
              (strictly_increasing_NoDup _ Hs)) as (ts & _ & _ & ->).
  assert (E : (months_spanned df <? 24)%nat = false)
    by (apply Nat.ltb_ge; lia).
  rewrite E. now destruct (seasonal_decompose _ _).
Qed.

(** Thirty consecutive months. *)
Definition thirty_months : list row :=
  map (fun d => mkRow d "Statewide" [100])
      (date_range (month_start 2014 1) (month_start 2016 6)).

Lemma enough_rows_are_decomposed_witness :
  decomposition_attempted (analyze_seasonality no_decomposition thirty_months)
    = true.
Proof.
  apply (enough_rows_are_decomposed no_decomposition thirty_months).
  - unfold strictly_increasing, thirty_months. rewrite map_map. cbn [Date].
    rewrite map_id. unfold date_range. vm_compute.
    repeat (constructor; [|repeat (constructor; [reflexivity|]); constructor]).
    constructor.
  - vm_compute. lia.
Defined.

End Analyzer.

(** ** The forecaster ([prediction.py], [google_colab_script.py]) *)

Module Forecaster.

Import Frame TimeSeries.
Open Scope float_scope.

(** *** Positional slicing *)

(** A slice bound as Python resolves it against a length: a negative bound
    counts from the end, and every bound is clipped to the sequence. *)
Definition slice_bound (n : nat) (i : Z) : nat :=
  if (i <? 0)%Z then Z.to_nat (Z.max 0 (Z.of_nat n + i))
  else Nat.min (Z.to_nat i) n.

(** [df.iloc[:stop]] *)
Definition iloc_until {A : Type} (stop : Z) (df : list A) : list A :=
  firstn (slice_bound (length df) stop) df.

(** [df.iloc[start:]] *)
Definition iloc_from {A : Type} (start : Z) (df : list A) : list A :=
  skipn (slice_bound (length df) start) df.

(** [s.iloc[-1]]: the last entry, [IndexError] on an empty series. *)
Definition iloc_last {A : Type} (s : list A) : result A :=
  match rev s with
  | [] => Raise IndexError
  | x :: _ => Ok x
  end.

(** [train_test_split_ts(df, test_months)] *)
Definition train_test_split_ts {A : Type} (df : list A) (test_months : Z)
  : list A * list A :=
  let train := iloc_until (- test_months) df in
  let test := iloc_from (- test_months) df in
  (train, test).

(** *** Scoring *)

Record score : Type := mkScore {
  Model : string;
  MAE : float;
  RMSE : float;
  MAPE : float
}.

Definition sub_columns (a b : list float) : list float :=
  map (fun p => fst p - snd p) (combine a b).

Definition plain_mean (l : list float) : float :=
  Num.sum l / Num.of_nat (length l).

(** [evaluate_model]: scikit-learn's two metrics reject inputs of different
    lengths, empty inputs and inputs with a NaN or an infinity
    ([ValueError]); the percentage error is a pandas mean of
    [|(y_true - y_pred) / y_true|], with no guard on a zero [y_true]. *)
Definition evaluate_model (y_true y_pred : list float) (model_name : string)
  : result score :=
  if negb (length y_true =? length y_pred)%nat
     || Frame.empty y_true
     || negb (forallb Num.isfinite (y_true ++ y_pred))
  then Raise ValueError
  else
    let err := sub_columns y_true y_pred in
    let mae := plain_mean (map PrimFloat.abs err) in
    let rmse := PrimFloat.sqrt (plain_mean (map (fun e => e * e) err)) in
    let mape :=
      Num.mean (map (fun p => PrimFloat.abs (fst p / snd p))
                    (combine err y_true)) * 100 in
    Ok (mkScore model_name mae rmse mape).

(** *** The structural-break check *)

(** [pd.to_datetime('2019-03-01')] *)
Definition break_date : date := month_start 2019 3.

(** [df[df['Date'] < break_date]] and [df[df['Date'] >= break_date]] *)
Definition pre_rows (df : list row) : list row :=
  where_ (fun r => (Date r <? break_date)%Z) df.

Definition post_rows (df : list row) : list row :=
  where_ (fun r => (break_date <=? Date r)%Z) df.

Definition pre_break (df : list row) : float :=
  Num.mean (map Households (pre_rows df)).

Definition post_break (df : list row) : float :=
  Num.mean (map Households (post_rows df)).

(** [if post_break > 1.5 * pre_break: model_df = df[df['Date'] >= break_date]
     else: model_df = df], the frame the models are built on. *)
Definition model_rows (df : list row) : list row :=
  if 1.5 * pre_break df <? post_break df then post_rows df else df.

(** [model_df.set_index('Date')['CalFresh Households']
       .asfreq('MS').interpolate()] *)
Definition model_series (df : list row) : result series :=
  s <- asfreq_MS (Households_series (model_rows df)) ;;
  Ok (interpolate s).

(** *** The baselines *)

(** [[train.iloc[-1]] * len(test)] *)
Definition naive_forecast (train test : series) : result (list float) :=
  last_value <- iloc_last (data train) ;;
  Ok (repeat last_value (length test)).

Fixpoint mapM {A B : Type} (f : A -> result B) (l : list A)
  : result (list B) :=
  match l with
  | [] => Ok []
  | a :: t => b <- f a ;; bs <- mapM f t ;; Ok (b :: bs)
  end.

(** The loop over [test.index]: the value 12 months earlier if the history
    has that month, and else the last value of the history. *)
Definition seasonal_naive_forecast (train test : series)
  : result (list float) :=
  mapM (fun d =>
          match loc (d - 12)%Z train with
          | Some v => Ok v
          | None => iloc_last (data train)
          end)
       (index test).

(** *** The fitted models *)

(** A fitted model, as its forecasts 1, 2, ... steps after the end of the
    series it was fitted on. *)
Definition fitted : Type := nat -> float.

(** [model.forecast(steps)] *)
Definition forecast (m : fitted) (steps : nat) : list float :=
  map m (seq 1 steps).

(** The index of a forecast: the months after the last one of the series. *)
Definition future_index (s : series) (steps : nat) : list date :=
  match rev (index s) with
  | [] => []
  | d :: _ => map (fun k => (d + Z.of_nat k)%Z) (seq 1 steps)
  end.

(** A [try] around a fit, its forecast and its scoring: any failure is
    printed and the model is left out of the results. *)
Definition try_model (fit : option fitted) (test : series) (name : string)
    (results : list score) : list score :=
  match fit with
  | Some m =>
      match evaluate_model (data test) (forecast m (length test)) name with
      | Ok sc => results ++ [sc]
      | Raise _ => results
      end
  | None => results
  end.

(** What a run of [run_models] that returns has produced: the scorecard it
    returns, the forecast it prints, and the series its final model was
    fitted on. *)
Record run_output : Type := mkOutput {
  results : list score;
  refit_series : series;
  future_forecast : series
}.

Section Models.

(** [ExponentialSmoothing(s, seasonal='add', seasonal_periods=12).fit()] and
    [SARIMAX(s, order=(1,1,1), seasonal_order=(1,1,1,12), ...).fit()];
    [None] when the construction or the fit raises. *)
Variable ExponentialSmoothing : series -> option fitted.
Variable SARIMAX : series -> option fitted.

(** The four candidate models, in order, scored against the holdout. *)
Definition compare_models (train test : series) : result (list score) :=
  y_pred_naive <- naive_forecast train test ;;
  naive <- evaluate_model (data test) y_pred_naive "Naive (Last Value)" ;;
  y_pred_snaive <- seasonal_naive_forecast train test ;;
  snaive <- evaluate_model (data test) y_pred_snaive "Seasonal Naive" ;;
  let results := [naive; snaive] in
  let results :=
    try_model (ExponentialSmoothing train) test "Holt-Winters" results in
  let results := try_model (SARIMAX train) test "SARIMA" results in
  Ok results.

(** [run_models] of [prediction.py].  Printing the training range does not
    fail on an empty history (the range prints as NaT); the first thing to
    fail there is [train.iloc[-1]].  The final fit is outside any [try]. *)
Definition run_models (df : list row) : result run_output :=
  model_df <- model_series df ;;
  let (train, test) := train_test_split_ts model_df 6 in
  results <- compare_models train test ;;
  match SARIMAX model_df with
  | None => Raise ValueError
  | Some final_model =>
      Ok (mkOutput results model_df
            (combine (future_index model_df 3) (forecast final_model 3)))
  end.

(** [run_predictions] of [google_colab_script.py]: the same without the
    printed ranges and without a final forecast. *)
Definition run_predictions (df : list row) : result (list score) :=
  model_df <- model_series df ;;
  let (train, test) := train_test_split_ts model_df 6 in
  compare_models train test.

End Models.

(** *** Facts on the split *)

Lemma slice_bound_last (n : nat) (k : Z) :
  (0 < k)%Z -> slice_bound n (Z.opp k) = (n - Z.to_nat k)%nat.
Proof.
  intros Hk. unfold slice_bound.
  destruct (Z.opp k <? 0)%Z eqn:E; [lia|].
  apply Z.ltb_ge in E. lia.
Qed.

Lemma train_test_split_app {A : Type} (df train test : list A) (k : Z) :
  train_test_split_ts df k = (train, test) -> train ++ test = df.
Proof.
  unfold train_test_split_ts, iloc_until, iloc_from.
  intros E. injection E as <- <-. apply firstn_skipn.
Qed.

Lemma train_test_split_6 {A : Type} (df : list A) :
  train_test_split_ts df 6 =
  (firstn (length df - 6) df, skipn (length df - 6) df).
Proof.
  unfold train_test_split_ts, iloc_until, iloc_from.
  now rewrite slice_bound_last by lia.
Qed.

Lemma iloc_last_app {A : Type} (front : list A) (x : A) :
  iloc_last (front ++ [x]) = Ok x.
Proof. unfold iloc_last. now rewrite rev_app_distr. Qed.

Lemma nonempty_last {A : Type} (l : list A) :
  l <> [] -> exists front x, l = front ++ [x].
Proof.
  intros H. destruct (rev l) as [|x r] eqn:E.
  - apply (f_equal (@rev A)) in E. rewrite rev_involutive in E. contradiction.
  - exists (rev r), x. apply (f_equal (@rev A)) in E.
    now rewrite rev_involutive in E.
Qed.

Lemma empty_false {A : Type} (l : list A) : Frame.empty l = false -> l <> [].
Proof. now destruct l. Qed.

(** The comparison needs a history: on an empty one [train.iloc[-1]]
    raises. *)
Lemma compare_models_empty_history
    (ES SX : series -> option fitted) (test : series) :
  compare_models ES SX [] test = Raise IndexError.
Proof. reflexivity. Qed.

(** *** C3 *)

(** C3: on a modelling series of more than 6 observations the holdout is
    its last 6 observations and the history all the earlier ones, and the
    naive prediction is one value six times over: the last value of the
    history. *)
Theorem naive_repeats_last_history_value (model_df : series) :
  (6 < length model_df)%nat ->
  exists train test front d last_value,
    train_test_split_ts model_df 6 = (train, test) /\
    train ++ test = model_df /\
    length test = 6%nat /\
    train = front ++ [(d, last_value)] /\
    naive_forecast train test =
      Ok [last_value; last_value; last_value;
          last_value; last_value; last_value].
Proof.
  intros Hlen.
  assert (Ht : firstn (length model_df - 6) model_df <> []).
  { intros E. apply (f_equal (@length _)) in E.
    rewrite length_firstn in E. cbn in E. lia. }
  destruct (nonempty_last _ Ht) as (front & [d v] & Hfront).
  exists (firstn (length model_df - 6) model_df),
         (skipn (length model_df - 6) model_df), front, d, v.
  assert (L : length (skipn (length model_df - 6) model_df) = 6%nat)
    by (rewrite length_skipn; lia).
  split; [apply train_test_split_6|].
  split; [apply firstn_skipn|].
  split; [exact L|]. split; [exact Hfront|].
  unfold naive_forecast. rewrite L, Hfront. unfold data.
  rewrite map_app. cbn [map snd]. now rewrite iloc_last_app.
Qed.

(** Eight months: two of history, six of holdout. *)
Definition eight_months : series :=
  combine (date_range (month_start 2020 1) (month_start 2020 8))
          [10; 20; 30; 40; 50; 60; 70; 80].

Example naive_forecast_eight_months :
  train_test_split_ts (data eight_months) 6 =
    ([10; 20], [30; 40; 50; 60; 70; 80]) /\
  naive_forecast (firstn 2 eight_months) (skipn 2 eight_months) =
    Ok [20; 20; 20; 20; 20; 20].
Proof. split; reflexivity. Qed.

Lemma naive_repeats_last_history_value_witness :
  exists train test last_value,
    train_test_split_ts eight_months 6 = (train, test) /\
    length test = 6%nat /\
    naive_forecast train test =
      Ok [last_value; last_value; last_value;
          last_value; last_value; last_value].
Proof.
  destruct (naive_repeats_last_history_value eight_months)
    as (train & test & front & d & v & Hs & _ & Hl & _ & Hn);
    [vm_compute; lia|].
  exists train, test, v. repeat split; assumption.
Defined.

(** *** C4 *)

Lemma where_partition (p q : row -> bool) (df : list row) :
  (forall r, q r = negb (p r)) ->
  Permutation (where_ p df ++ where_ q df) df.
Proof.
  intros Hq. unfold where_. induction df as [|r t IH]; [constructor|].
  cbn [filter]. rewrite Hq. destruct (p r); cbn [negb app].
  - now constructor.
  - symmetry. apply Permutation_cons_app. now symmetry.
Qed.

(** C4: the check splits the series at 2019-03-01 into the observations
    before it and those on or after it; when the mean of the household
    counts after is strictly greater than 1.5 times the mean before, the
    models are built on the observations on or after the reference date
    only, and otherwise on the whole series. *)
Theorem structural_break_rule (df : list row) :
  Permutation (pre_rows df ++ post_rows df) df /\
  Forall (fun r => (Date r < month_start 2019 3)%Z) (pre_rows df) /\
  Forall (fun r => (month_start 2019 3 <= Date r)%Z) (post_rows df) /\
  ((1.5 * Num.mean (map Households (pre_rows df))
      <? Num.mean (map Households (post_rows df))) = true ->
     model_rows df = post_rows df) /\
  ((1.5 * Num.mean (map Households (pre_rows df))
      <? Num.mean (map Households (post_rows df))) = false ->
     model_rows df = df) /\
  model_series df =
    (s <- asfreq_MS (Households_series (model_rows df)) ;; Ok (interpolate s)).
Proof.
  split; [|split; [|split; [|split; [|split]]]].
  - apply where_partition. intros r. apply Z.leb_antisym.
  - apply Forall_forall. intros r Hr. apply filter_In in Hr as [_ Hr].
    now apply Z.ltb_lt in Hr.
  - apply Forall_forall. intros r Hr. apply filter_In in Hr as [_ Hr].
    now apply Z.leb_le in Hr.
  - intros H. unfold model_rows, pre_break, post_break. now rewrite H.
  - intros H. unfold model_rows, pre_break, post_break. now rewrite H.
  - reflexivity.
Qed.

Definition Jan19 : date := month_start 2019 1.
Definition Mar19 : date := month_start 2019 3.
Definition Sep19 : date := month_start 2019 9.

Definition flat_months (lo hi : date) (v : float) : list row :=
  map (fun d => mkRow d "Statewide" [v]) (date_range lo hi).

(** 100 households in January 2019, 200 from March to September. *)
Definition df_shift : list row :=
  mkRow Jan19 "Statewide" [100] :: flat_months Mar19 Sep19 200.

(** 100 households in January 2019, 150 from March to September: the mean
    after is 1.5 times the mean before, not more. *)
Definition df_no_shift : list row :=
  mkRow Jan19 "Statewide" [100] :: flat_months Mar19 Sep19 150.

Lemma structural_break_rule_witness :
  model_rows df_shift = flat_months Mar19 Sep19 200 /\
  model_rows df_no_shift = df_no_shift.
Proof.
  split.
  - apply (proj1 (proj2 (proj2 (proj2 (structural_break_rule df_shift))))).
    vm_compute. reflexivity.
  - apply (proj1 (proj2 (proj2 (proj2 (proj2
             (structural_break_rule df_no_shift)))))).
    vm_compute. reflexivity.
Defined.

(** *** C6 *)

(** The full cleaned series, gap-filled: what the modelling series would be
    without the structural-break check. *)
Definition cleaned_series (df : list row) : result series :=
  s <- asfreq_MS (Households_series df) ;;
  Ok (interpolate s).

(** A stand-in for the statsmodels fits, to run the examples: it always
    fits and forecasts the last value of its input. *)
Definition last_value_model : series -> option fitted :=
  fun s =>
    match rev (data s) with
    | [] => None
    | x :: _ => Some (fun _ => x)
    end.

(** C6, as stated, fails: when the structural-break check fires, the final
    model is fitted on the observations from March 2019 on, and January
    2019, which the full cleaned series holds, is not among them. *)
Lemma final_refit_leaves_out_pre_break :
  exists out full,
    run_models last_value_model last_value_model df_shift = Ok out /\
    cleaned_series df_shift = Ok full /\
    index full = date_range Jan19 Sep19 /\
    index (refit_series out) = date_range Mar19 Sep19 /\
    refit_series out <> full.
Proof.
  eexists. eexists.
  split; [vm_compute; reflexivity|].
  split; [vm_compute; reflexivity|].
  split; [reflexivity|]. split; [reflexivity|].
  intros E. apply (f_equal (@length _)) in E. discriminate E.
Qed.

(** C6, amended: in every run of [run_models] that reaches its final step,
    the seasonal ARIMA model is refitted on the whole modelling series - the
    cleaned series after the structural-break check, gap-filled: history
    and the 6 holdout observations together, not the history alone - and
    the forecast holds exactly 3 periods, the 3 months after the last
    observation of that series. *)
Theorem final_refit_on_model_series
    (ExponentialSmoothing SARIMAX : series -> option fitted)
    (df : list row) (out : run_output) :
  run_models ExponentialSmoothing SARIMAX df = Ok out ->
  exists model_df train test final_model last_date,
    model_series df = Ok model_df /\
    train_test_split_ts model_df 6 = (train, test) /\
    train <> [] /\ length test = 6%nat /\
    refit_series out = train ++ test /\
    train ++ test = model_df /\
    SARIMAX model_df = Some final_model /\
    iloc_last (index model_df) = Ok last_date /\
    future_forecast out =
      [ ((last_date + 1)%Z, final_model 1%nat);
        ((last_date + 2)%Z, final_model 2%nat);
        ((last_date + 3)%Z, final_model 3%nat) ].
Proof.
  unfold run_models. intros H.
  destruct (model_series df) as [model_df|] eqn:Em;
    cbn [bind] in H; [|discriminate H].
  rewrite train_test_split_6 in H.
  set (train := firstn (length model_df - 6) model_df) in *.
  set (test := skipn (length model_df - 6) model_df) in *.
  destruct (compare_models ExponentialSmoothing SARIMAX train test)
    as [scores|] eqn:Ec; cbn [bind] in H; [|discriminate H].
  destruct (SARIMAX model_df) as [final_model|] eqn:Es; [|discriminate H].
  injection H as <-. cbn [refit_series future_forecast].
  assert (Ee : train <> []).
  { intros E. rewrite E, compare_models_empty_history in Ec.
    discriminate Ec. }
  assert (Hlen : (6 < length model_df)%nat).
  { destruct (Nat.le_gt_cases (length model_df) 6) as [L|L]; [|exact L].
    exfalso. apply Ee. unfold train.
    replace (length model_df - 6)%nat with 0%nat by lia. reflexivity. }
  assert (Hi : index model_df <> []).
  { intros E. apply (f_equal (@length _)) in E. unfold index in E.
    rewrite length_map in E. cbn in E. lia. }
  destruct (nonempty_last _ Hi) as (front & last_date & Hfront).
  exists model_df, train, test, final_model, last_date.
  assert (App : train ++ test = model_df) by apply firstn_skipn.
  split; [reflexivity|]. split; [apply train_test_split_6|].
  split; [exact Ee|].
  split; [unfold test; rewrite length_skipn; lia|].
  split; [now rewrite App|]. split; [exact App|].
  split; [exact Es|].
  split; [rewrite Hfront; apply iloc_last_app|].
  unfold future_index. rewrite Hfront, rev_app_distr. reflexivity.
Qed.

Lemma final_refit_on_model_series_witness :
  exists out,
    run_models last_value_model last_value_model df_no_shift = Ok out /\
    Ok (refit_series out) = cleaned_series df_no_shift /\
    index (future_forecast out) =
      [month_start 2019 10; month_start 2019 11; month_start 2019 12].
Proof.
  destruct (run_models last_value_model last_value_model df_no_shift)
    as [out|] eqn:E; [|vm_compute in E; discriminate E].
  exists out. split; [reflexivity|].
  destruct (final_refit_on_model_series _ _ _ _ E)
    as (model_df & train & test & fm & last_date &
        Hm & _ & _ & _ & Hr & Happ & _ & Hl & Hf).
  rewrite Hr, Happ, Hf.
  assert (Hc : cleaned_series df_no_shift = model_series df_no_shift)
    by reflexivity.
  rewrite Hc, Hm. split; [reflexivity|].
  vm_compute in Hm. injection Hm as <-.
  vm_compute in Hl. injection Hl as <-. reflexivity.
Defined.

(** *** Edge cases of the split *)

(** X11: whatever [test_months], history and holdout together are the series,
    in order.  A positive [test_months] holds out that many observations,
    or all of them if there are not more; holding out zero months gives an
    empty history and the whole series as holdout ([-0] is [0]). *)
Theorem train_test_split_edges {A : Type} (df : list A) (test_months : Z) :
  fst (train_test_split_ts df test_months) ++
    snd (train_test_split_ts df test_months) = df /\
  ((0 < test_months)%Z ->
     length (snd (train_test_split_ts df test_months)) =
       Nat.min (Z.to_nat test_months) (length df) /\
     ((Z.of_nat (length df) <= test_months)%Z ->
        train_test_split_ts df test_months = ([], df))) /\
  (test_months = 0%Z -> train_test_split_ts df test_months = ([], df)).
Proof.
  unfold train_test_split_ts, iloc_until, iloc_from. cbn [fst snd].
  split; [apply firstn_skipn|]. split.
  - intros Hk. rewrite slice_bound_last by exact Hk. split.
    + rewrite length_skipn. lia.
    + intros Hn.
      replace (length df - Z.to_nat test_months)%nat with 0%nat by lia.
      reflexivity.
  - intros ->. reflexivity.
Qed.

Lemma train_test_split_edges_witness :
  train_test_split_ts [1; 2; 3]%Z 6 = ([], [1; 2; 3]%Z) /\
  train_test_split_ts [1; 2; 3]%Z 0 = ([], [1; 2; 3]%Z) /\
  length (snd (train_test_split_ts [1; 2; 3]%Z 2)) = 2%nat.
Proof.
  split; [|split].
  - apply (proj1 (proj2 (train_test_split_edges [1; 2; 3]%Z 6)));
      cbn; lia.
  - apply (proj2 (proj2 (train_test_split_edges [1; 2; 3]%Z 0))).
    reflexivity.
  - apply (proj1 (proj2 (train_test_split_edges [1; 2; 3]%Z 2))). lia.
Defined.

(** *** Too little data *)

(** X12: when the modelling series has 6 observations or fewer, the history
    is empty and both forecasters stop with an exception before any model
    is fitted, on [train.iloc[-1]]. *)
Theorem forecasters_need_more_than_6_months
    (ExponentialSmoothing SARIMAX : series -> option fitted)
    (df : list row) (model_df : series) :
  model_series df = Ok model_df ->
  (length model_df <= 6)%nat ->
  raises (run_models ExponentialSmoothing SARIMAX df) = true /\
  run_predictions ExponentialSmoothing SARIMAX df = Raise IndexError.
Proof.
  intros Hm Hlen. unfold run_models, run_predictions.
  rewrite Hm. cbn [bind]. rewrite train_test_split_6.
  replace (length model_df - 6)%nat with 0%nat by lia.
  cbn [firstn skipn]. rewrite compare_models_empty_history.
  split; reflexivity.
Qed.

Lemma forecasters_need_more_than_6_months_witness :
  raises (run_models last_value_model last_value_model
            (flat_months Mar19 (month_start 2019 8) 200)) = true /\
  run_predictions last_value_model last_value_model
    (flat_months Mar19 (month_start 2019 8) 200) = Raise IndexError.
Proof.
  eapply forecasters_need_more_than_6_months.
  - vm_compute. reflexivity.
  - cbn. lia.
Defined.

(** *** The seasonal-naive baseline *)

Lemma mapM_Ok {A B : Type} (f : A -> result B) (g : A -> B) (l : list A) :
  (forall a, In a l -> f a = Ok (g a)) -> mapM f l = Ok (map g l).
Proof.
  induction l as [|a t IH]; intros H; [reflexivity|].
  cbn [mapM map]. rewrite (H a) by now left. cbn [bind].
  rewrite IH by (intros; apply H; now right). reflexivity.
Qed.

(** X13: with a non-empty history the seasonal-naive forecast never fails
    and has one value per holdout date: the value of the same month a year
    earlier where the history has that month, the last value of the history
    elsewhere.  When the history holds none of those months it is the naive
    forecast. *)
Theorem seasonal_naive_falls_back
    (train test : series) (last_value : float) :
  iloc_last (data train) = Ok last_value ->
  seasonal_naive_forecast train test =
    Ok (map (fun d => match loc (d - 12)%Z train with
                      | Some v => v
                      | None => last_value
                      end) (index test)) /\
  ((forall d, In d (index test) -> loc (d - 12)%Z train = None) ->
     seasonal_naive_forecast train test = naive_forecast train test).
Proof.
  intros Hl.
  assert (E : seasonal_naive_forecast train test =
              Ok (map (fun d => match loc (d - 12)%Z train with
                                | Some v => v
                                | None => last_value
                                end) (index test))).
  { unfold seasonal_naive_forecast. apply mapM_Ok. intros d _.
    now destruct (loc (d - 12)%Z train). }
  split; [exact E|]. intros Hnone. rewrite E.
  unfold naive_forecast. rewrite Hl. cbn [bind]. f_equal.
  unfold index in *. clear E.
  induction test as [|[d v] t IH]; [reflexivity|].
  cbn [map fst length repeat]. rewrite (Hnone d) by now left.
  f_equal. apply IH. intros d' Hd'. apply Hnone. now right.
Qed.

(** Fourteen months of data: only the first two holdout months have their
    month of the year before in the history. *)
Definition fourteen_months : series :=
  combine (date_range (month_start 2020 1) (month_start 2021 2))
          [1; 2; 3; 4; 5; 6; 7; 8; 9; 10; 11; 12; 13; 14].

Lemma seasonal_naive_falls_back_witness :
  seasonal_naive_forecast (firstn 8 fourteen_months) (skipn 8 fourteen_months)
    = Ok [8; 8; 8; 8; 1; 2] /\
  seasonal_naive_forecast (firstn 2 eight_months) (skipn 2 eight_months)
    = naive_forecast (firstn 2 eight_months) (skipn 2 eight_months).
Proof.
  split.
  - apply (proj1 (seasonal_naive_falls_back (firstn 8 fourteen_months)
                    (skipn 8 fourteen_months) 8 eq_refl)).
  - apply (proj2 (seasonal_naive_falls_back (firstn 2 eight_months)
                    (skipn 2 eight_months) 20 eq_refl)).
    intros d Hd. cbn in Hd.
    repeat (destruct Hd as [<-|Hd]; [reflexivity|]). destruct Hd.
Defined.

(** *** Failing models *)

Lemma evaluate_model_Model (y_true y_pred : list float) (name : string)
    (sc : score) :
  evaluate_model y_true y_pred name = Ok sc -> Model sc = name.
Proof.
  unfold evaluate_model.
  destruct (negb (length y_true =? length y_pred)%nat
            || Frame.empty y_true
            || negb (forallb Num.isfinite (y_true ++ y_pred)));
    [discriminate|].
  intros E. injection E as <-. reflexivity.
Qed.

Lemma try_model_extends (fit : option fitted) (test : series) (name : string)
    (results : list score) :
  exists more, try_model fit test name results = results ++ more /\
    (length more <= 1)%nat /\ (fit = None -> more = []).
Proof.
  unfold try_model. destruct fit as [m|].
  - destruct (evaluate_model _ _ _) as [sc|].
    + exists [sc]. repeat split; [cbn; lia|discriminate].
    + exists []. rewrite app_nil_r. repeat split; cbn; lia.
  - exists []. rewrite app_nil_r. repeat split; cbn; lia.
Qed.

(** X14: a model that fails to fit never aborts the comparison.  Whether
    [compare_models] raises does not depend on the two statsmodels fits;
    when it returns, the scorecard starts with the naive and the
    seasonal-naive scores, in that order, followed by at most two more, and
    by none when both fits fail. *)
Theorem failing_models_are_skipped
    (ES SX ES' SX' : series -> option fitted) (train test : series) :
  raises (compare_models ES SX train test) =
  raises (compare_models ES' SX' train test) /\
  (forall results,
     compare_models ES SX train test = Ok results ->
     exists naive snaive more,
       results = naive :: snaive :: more /\
       Model naive = "Naive (Last Value)"%string /\
       Model snaive = "Seasonal Naive"%string /\
       (length more <= 2)%nat /\
       (ES train = None -> SX train = None -> more = [])).
Proof.
  unfold compare_models. split.
  - destruct (naive_forecast train test) as [p1|]; [|reflexivity].
    cbn [bind]. destruct (evaluate_model (data test) p1 _) as [s1|];
      [|reflexivity].
    cbn [bind]. destruct (seasonal_naive_forecast train test) as [p2|];
      [|reflexivity].
    cbn [bind]. destruct (evaluate_model (data test) p2 _) as [s2|];
      reflexivity.
  - intros results H.
    destruct (naive_forecast train test) as [p1|]; [|discriminate H].
    cbn [bind] in H.
    destruct (evaluate_model (data test) p1 _) as [s1|] eqn:E1;
      [|discriminate H].
    cbn [bind] in H.
    destruct (seasonal_naive_forecast train test) as [p2|]; [|discriminate H].
    cbn [bind] in H.
    destruct (evaluate_model (data test) p2 _) as [s2|] eqn:E2;
      [|discriminate H].
    cbn [bind] in H. injection H as <-.
    destruct (try_model_extends (ES train) test "Holt-Winters" [s1; s2])
      as (m1 & -> & L1 & N1).
    destruct (try_model_extends (SX train) test "SARIMA" ([s1; s2] ++ m1))
      as (m2 & -> & L2 & N2).
    exists s1, s2, (m1 ++ m2). rewrite <- app_assoc. cbn [app].
    split; [reflexivity|].
    split; [exact (evaluate_model_Model _ _ _ _ E1)|].
    split; [exact (evaluate_model_Model _ _ _ _ E2)|].
    split; [rewrite length_app; lia|].
    intros H1 H2. now rewrite (N1 H1), (N2 H2).
Qed.

(** A fit that always fails. *)
Definition failing_model : series -> option fitted := fun _ => None.

Lemma failing_models_are_skipped_witness :
  exists naive snaive,
    compare_models failing_model failing_model
      (firstn 2 eight_months) (skipn 2 eight_months) = Ok [naive; snaive] /\
    Model naive = "Naive (Last Value)"%string.
Proof.
  destruct (compare_models failing_model failing_model
              (firstn 2 eight_months) (skipn 2 eight_months))
    as [results|] eqn:E; [|vm_compute in E; discriminate E].
  destruct (proj2 (failing_models_are_skipped failing_model failing_model
                     failing_model failing_model
                     (firstn 2 eight_months) (skipn 2 eight_months))
                  results E)
    as (naive & snaive & more & -> & Hn & _ & _ & Hm).
  exists naive, snaive. rewrite (Hm eq_refl eq_refl). now split.
Defined.

(** *** The modelling series *)







(** Data for January, February and October 2020 only. *)
Definition df_gaps : list row :=
  [ mkRow (month_start 2020 1) "Statewide" [10];
    mkRow (month_start 2020 2) "Statewide" [20];
    mkRow (month_start 2020 10) "Statewide" [100] ].


(** X16: gap filling never alters an observation: every row the models are
    built on whose household count is present is in the modelling series,
    at its date and with its value. *)
Theorem model_series_keeps_observations
    (df : list row) (model_df : series) (r : row) :
  model_series df = Ok model_df ->
  In r (model_rows df) ->
  Num.isnan (Households r) = false ->
  In (Date r, Households r) model_df.
Proof.
  unfold model_series. intros H Hr Hv.
  destruct (asfreq_MS (Households_series (model_rows df))) as [ts|] eqn:E;
    [|discriminate H].
  cbn [bind] in H. injection H as <-.
  apply interpolate_keeps_observations; [|exact Hv].
  apply (asfreq_MS_keeps_observations _ _ _ _ E).
  unfold Households_series. apply in_map_iff. now exists r.
Qed.

Lemma model_series_keeps_observations_witness :
  exists model_df,
    model_series df_gaps = Ok model_df /\
    In (month_start 2020 10, 100) model_df.
Proof.
  destruct (model_series df_gaps) as [model_df|] eqn:E;
    [|vm_compute in E; discriminate E].
  exists model_df. split; [reflexivity|].
  apply (model_series_keeps_observations df_gaps _
           (mkRow (month_start 2020 10) "Statewide" [100]) E).
  - right. right. left. reflexivity.
  - reflexivity.
Defined.

(** *** From the aggregation to the analyses *)

Lemma NoDup_dates_where (p : row -> bool) (df : list row) :
  NoDup (map Date df) -> NoDup (map Date (where_ p df)).
Proof.
  unfold where_. induction df as [|r t IH]; intros H; [constructor|].
  cbn [map] in H. inversion H as [|? ? Hn Ht]; subst.
  cbn [filter]. destruct (p r); [|now apply IH].
  cbn [map]. constructor; [|now apply IH].
  intros Hin. apply Hn. apply in_map_iff in Hin as (x & Hx & Hin).
  apply filter_In in Hin as [Hin _]. apply in_map_iff. now exists x.
Qed.

Lemma model_series_unique (df : list row) :
  NoDup (map Date df) -> exists model_df, model_series df = Ok model_df.
Proof.
  intros Hn.
  assert (Hm : NoDup (map Date (model_rows df))).
  { unfold model_rows. destruct (1.5 * pre_break df <? post_break df);
      [now apply NoDup_dates_where|exact Hn]. }
  unfold model_series.
  destruct (asfreq_MS_unique (Households_series (model_rows df)))
    as (ts & -> & _).
  - unfold index, Households_series. now rewrite map_map.
  - now eexists.
Qed.

(** X17: on county data without a Statewide row the aggregated frame goes
    through the reindexing of both analyses: the modelling series of the
    forecasters is built and the seasonality analysis does not raise,
    whatever rows the file repeats. *)
Theorem fallback_aggregate_reindexes
    (seasonal_decompose : list float -> nat -> option Analyzer.decomposition)
    (df : list row) :
  existsb Statewide.is_Statewide df = false ->
  (exists model_df,
     model_series (Statewide.plot_statewide_trend df) = Ok model_df) /\
  raises (Analyzer.analyze_seasonality seasonal_decompose
            (Statewide.plot_statewide_trend df)) = false.
Proof.
  intros H. rewrite (Statewide.fallback_branch _ H).
  assert (Hn : NoDup (map Date (groupby_Date_sum df)))
    by apply strictly_increasing_NoDup, Statewide.groupby_strictly_increasing.
  split; [now apply model_series_unique|].
  destruct (Analyzer.analyze_seasonality_unique seasonal_decompose _ Hn)
    as (ts & _ & _ & ->).
  destruct (Analyzer.months_spanned _ <? 24)%nat; [reflexivity|].
  now destruct (seasonal_decompose _ _).
Qed.

Lemma fallback_aggregate_reindexes_witness :
  raises (Analyzer.analyze_seasonality Analyzer.no_decomposition
            (Statewide.plot_statewide_trend
               (Statewide.df_counties ++ Statewide.df_counties))) = false.
Proof.
  apply (fallback_aggregate_reindexes Analyzer.no_decomposition
           (Statewide.df_counties ++ Statewide.df_counties)).
  reflexivity.
Defined.

End Forecaster.

(** ** The advanced visuals ([advanced_analysis.py]) *)

Module Advanced.

Import Frame.

(** *** The header scan of [analyze_heat_calendar] *)

(** [needle in haystack] on strings. *)
Fixpoint contains (needle haystack : string) : bool :=
  String.prefix needle haystack
  || match haystack with
     | EmptyString => false
     | String _ rest => contains needle rest
     end.

Definition marker : string := "Participation Persons".

(** [for i, line in enumerate(...): if marker in line: header_row = i; break],
    from position [i] on; [-1] is the initial [header_row]. *)
Fixpoint scan_lines (i : Z) (lines : list string) : Z :=
  match lines with
  | [] => (-1)%Z
  | line :: rest =>
      if contains marker line then i else scan_lines (i + 1)%Z rest
  end.

(** The scan over [lines[:20]]. *)
Definition find_header_row (lines : list string) : Z :=
  scan_lines 0 (firstn 20 lines).

Lemma scan_lines_spec (lines : list string) (i : Z) :
  (scan_lines i lines = (-1)%Z /\
   Forall (fun line => contains marker line = false) lines) \/
  (exists k,
     (k < length lines)%nat /\
     scan_lines i lines = (i + Z.of_nat k)%Z /\
     contains marker (nth k lines EmptyString) = true /\
     forall j, (j < k)%nat ->
       contains marker (nth j lines EmptyString) = false).
Proof.
  revert i. induction lines as [|line rest IH]; intros i.
  - left. split; [reflexivity|constructor].
  - cbn [scan_lines]. destruct (contains marker line) eqn:E.
    + right. exists 0%nat. cbn [length nth]. repeat split; try lia.
      exact E.
    + destruct (IH (i + 1)%Z) as [[H F]|(k & Hk & H & Hc & Hj)].
      * left. split; [exact H|now constructor].
      * right. exists (S k). cbn [length nth]. repeat split; try lia.
        -- exact Hc.
        -- intros [|j] Hlt; [exact E|]. apply Hj. lia.
Qed.

(** X18: the header scan returns either [-1] or the position, among the
    first 20 lines of the file, of the first line that holds the marker;
    it returns [-1] exactly when none of the first 20 lines holds it, so a
    header further down is not found. *)
Theorem header_scan_first_20_lines (lines : list string) :
  (find_header_row lines = (-1)%Z <->
   forall j, (j < 20)%nat -> (j < length lines)%nat ->
     contains marker (nth j lines EmptyString) = false) /\
  (find_header_row lines <> (-1)%Z ->
   exists k,
     find_header_row lines = Z.of_nat k /\
     (k < 20)%nat /\ (k < length lines)%nat /\
     contains marker (nth k lines EmptyString) = true /\
     forall j, (j < k)%nat ->
       contains marker (nth j lines EmptyString) = false).
Proof.
  unfold find_header_row.
  assert (N : forall j, (j < 20)%nat ->
                nth j (firstn 20 lines) EmptyString = nth j lines EmptyString).
  { intros j Hj. rewrite <- (firstn_skipn 20 lines) at 2.
    destruct (Nat.lt_ge_cases j (length (firstn 20 lines))) as [L|L].
    - now rewrite app_nth1.
    - rewrite (nth_overflow (firstn 20 lines)) by exact L.
      rewrite length_firstn in L.
      rewrite nth_overflow; [reflexivity|].
      rewrite length_app, length_firstn, length_skipn. lia. }
  pose proof (length_firstn 20 lines) as Lf.
  destruct (scan_lines_spec (firstn 20 lines) 0)
    as [[H F]|(k & Hk & H & Hc & Hj)].
  - split; [|intros C; contradiction].
    split; [|intros _; exact H]. intros _ j Hj Hl.
    rewrite <- N by exact Hj. rewrite Forall_forall in F. apply F.
    apply nth_In. lia.
  - rewrite H. cbn [Z.add]. split.
    + split; [lia|]. intros A. exfalso.
      rewrite N in Hc by lia. rewrite A in Hc by lia. discriminate.
    + intros _. exists k. rewrite N in Hc by lia.
      repeat split; try lia; [exact Hc|].
      intros j Hlt. rewrite <- N by lia. now apply Hj.
Qed.

Lemma header_scan_first_20_lines_witness :
  find_header_row (repeat "FY 2020,,"%string 20
                     ++ ["Month,SNAP Participation Persons"%string])
    = (-1)%Z /\
  find_header_row ["Report"%string; "Month,Participation Persons"%string]
    = 1%Z.
Proof.
  split; [|reflexivity].
  apply (proj1 (header_scan_first_20_lines _)).
  intros j Hj _.
  do 20 (destruct j as [|j]; [reflexivity|]). lia.
Defined.

(** *** The lag of [analyze_recession_lag] *)

Open Scope float_scope.

(** The two metric columns of the frame, after their cleaning. *)
Definition CalFresh_Persons (r : row) : float := col 0 r.
Definition Unemployment_Monthly (r : row) : float := col 1 r.

(** [s.rolling(window=3).mean()]: the mean of each value and the two before
    it, NaN while there are not three of them or when one is missing. *)
Fixpoint rolling_mean_3_from (p2 p1 : float) (l : list float) : list float :=
  match l with
  | [] => []
  | x :: t => ((p2 + p1 + x) / 3) :: rolling_mean_3_from p1 x t
  end.

Definition rolling_mean_3 (l : list float) : list float :=
  rolling_mean_3_from nan nan l.

(** [Date.dt.year] *)
Definition year (d : date) : Z := (d / 12)%Z.

(** [s.idxmax()] on a column given with its row labels: the label of the
    first largest value, missing values skipped; [None] (an exception) when
    no value is present. *)
Definition idxmax_step {A : Type} (best : option (A * float)) (av : A * float)
  : option (A * float) :=
  if Num.isnan (snd av) then best
  else match best with
       | None => Some av
       | Some (_, bv) => if bv <? snd av then Some av else best
       end.

Definition idxmax {A : Type} (l : list (A * float)) : option A :=
  option_map fst (fold_left idxmax_step l None).

(** [datetime.toordinal()] of the first day of a month. *)
Definition is_leap (y : Z) : bool :=
  ((y mod 4 =? 0) && (negb (y mod 100 =? 0) || (y mod 400 =? 0)))%Z.

Definition days_before_year (y : Z) : Z :=
  let y' := (y - 1)%Z in (y' * 365 + y' / 4 - y' / 100 + y' / 400)%Z.

Definition days_before_month (y m0 : Z) : Z :=
  (nth (Z.to_nat m0)
       [0; 31; 59; 90; 120; 151; 181; 212; 243; 273; 304; 334] 0
   + if (2 <=? m0) && is_leap y then 1 else 0)%Z.

Definition toordinal (d : date) : Z :=
  (days_before_year (d / 12) + days_before_month (d / 12) (d mod 12) + 1)%Z.

(** An [int] as a [float]. *)
Definition float_of_Z (z : Z) : float :=
  if (z <? 0)%Z then - PrimFloat.of_uint63 (Uint63.of_Z (- z))
  else PrimFloat.of_uint63 (Uint63.of_Z z).

(** [round(x)] on a float: the nearest integer, a tie going to the even
    one; an exception ([None]) on an infinity or NaN. *)
Definition py_round (x : float) : option Z :=
  match Prim2SF x with
  | S754_zero _ => Some 0%Z
  | S754_finite s m e =>
      let magnitude :=
        if (0 <=? e)%Z then (Z.pos m * 2 ^ e)%Z
        else
          let p := (2 ^ (- e))%Z in
          let q := (Z.pos m / p)%Z in
          let r := (Z.pos m mod p)%Z in
          match (2 * r ?= p)%Z with
          | Lt => q
          | Gt => (q + 1)%Z
          | Eq => if Z.even q then q else (q + 1)%Z
          end in
      Some (if s then (- magnitude)%Z else magnitude)
  | _ => None
  end.

(** [lag_days = (hunger_peak_date - unemp_peak_date).days] and
    [lag_months = round(lag_days / 30)]. *)
Definition lag_months (unemp_peak_date hunger_peak_date : date) : option Z :=
  let lag_days := (toordinal hunger_peak_date - toordinal unemp_peak_date)%Z in
  py_round (float_of_Z lag_days / 30).

(** The rows of a frame with the smoothed values of one of its columns:
    [df[column].rolling(window=3).mean()]. *)
Definition smoothed (column : row -> float) (df : list row)
  : list (row * float) :=
  combine df (rolling_mean_3 (map column df)).

(** [df[(df['Date'].dt.year >= 2020) & (df['Date'].dt.year <= 2021)]] *)
Definition covid_era (rows : list (row * float)) : list (row * float) :=
  filter (fun rv => ((2020 <=? year (Date (fst rv)))
                     && (year (Date (fst rv)) <=? 2021))%Z) rows.

(** [analyze_recession_lag] from the frame with parsed dates and cleaned
    metrics up to [lag_months], the number its chart reports; [None] when
    the [try] block fails.  The frame is not restricted to one county: every
    row of the file takes part. *)
Definition analyze_recession_lag (df : list row) : option Z :=
  let df := sort_values df in
  let covid_unemp := covid_era (smoothed Unemployment_Monthly df) in
  let covid_hunger := covid_era (smoothed CalFresh_Persons df) in
  match idxmax covid_unemp, idxmax covid_hunger with
  | Some unemp_peak, Some hunger_peak =>
      lag_months (Date unemp_peak) (Date hunger_peak)
  | _, _ => None
  end.

(** A peak of a smoothed column: a row whose smoothed value is present and
    is exceeded by no other. *)
Definition is_peak (rows : list (row * float)) (r : row) : Prop :=
  exists v, In (r, v) rows /\ Num.isnan v = false /\
    forall r' v', In (r', v') rows -> (v <? v') = false.

(** What [idxmax] has found after the rows [seen]. *)
Definition idxmax_invariant {A : Type} (best : option (A * float))
    (seen : list (A * float)) : Prop :=
  match best with
  | None => forall a v, In (a, v) seen -> Num.isnan v = true
  | Some (b, bv) =>
      In (b, bv) seen /\ Num.isnan bv = false /\
      forall a v, In (a, v) seen -> (bv <? v) = false
  end.

Lemma idxmax_step_invariant {A : Type} (best : option (A * float))
    (seen : list (A * float)) (av : A * float) :
  idxmax_invariant best seen ->
  idxmax_invariant (idxmax_step best av) (seen ++ [av]).
Proof.
  destruct av as [x xv]. unfold idxmax_step. cbn [snd]. intros I.
  destruct (Num.isnan xv) eqn:Ex.
  - destruct best as [[b bv]|]; cbn [idxmax_invariant] in *.
    + destruct I as (Hin & Hb & Hmax). repeat split.
      * apply in_or_app. now left.
      * exact Hb.
      * intros a v Ha. apply in_app_or in Ha as [Ha|[Ha|[]]]; [eauto|].
        injection Ha as <- <-. rewrite (Num.isnan_nan _ Ex).
        apply Num.ltb_nan_r.
    + intros a v Ha. apply in_app_or in Ha as [Ha|[Ha|[]]]; [eauto|].
      now injection Ha as <- <-.
  - destruct best as [[b bv]|]; cbn [idxmax_invariant] in *.
    + destruct I as (Hin & Hb & Hmax).
      destruct (bv <? xv) eqn:Lt; cbn [idxmax_invariant].
      * repeat split.
        -- apply in_or_app. right. now left.
        -- exact Ex.
        -- intros a v Ha. apply in_app_or in Ha as [Ha|[Ha|[]]].
           ++ destruct (xv <? v) eqn:Lt'; [|reflexivity].
              rewrite <- (Hmax a v Ha). symmetry.
              exact (Num.ltb_trans _ _ _ Lt Lt').
           ++ injection Ha as <- <-. apply Num.ltb_irrefl.
      * repeat split.
        -- apply in_or_app. now left.
        -- exact Hb.
        -- intros a v Ha. apply in_app_or in Ha as [Ha|[Ha|[]]]; [eauto|].
           now injection Ha as <- <-.
    + repeat split.
      * apply in_or_app. right. now left.
      * exact Ex.
      * intros a v Ha. apply in_app_or in Ha as [Ha|[Ha|[]]].
        -- rewrite (Num.isnan_nan _ (I a v Ha)). apply Num.ltb_nan_r.
        -- injection Ha as <- <-. apply Num.ltb_irrefl.
Qed.

Lemma idxmax_fold_invariant {A : Type} (l seen : list (A * float))
    (best : option (A * float)) :
  idxmax_invariant best seen ->
  idxmax_invariant (fold_left idxmax_step l best) (seen ++ l).
Proof.
  revert seen best. induction l as [|av t IH]; intros seen best I.
  - now rewrite app_nil_r.
  - cbn [fold_left].
    replace (seen ++ av :: t) with ((seen ++ [av]) ++ t)
      by now rewrite <- app_assoc.
    apply IH. now apply idxmax_step_invariant.
Qed.

(** [idxmax] returns the label of a value that is present and that no value
    of the column exceeds. *)
Lemma idxmax_is_max {A : Type} (l : list (A * float)) (a : A) :
  idxmax l = Some a ->
  exists v, In (a, v) l /\ Num.isnan v = false /\
    forall a' v', In (a', v') l -> (v <? v') = false.
Proof.
  unfold idxmax. intros H.
  assert (I : idxmax_invariant (fold_left idxmax_step l None) ([] ++ l)).
  { apply idxmax_fold_invariant. cbn. intros ? ? []. }
  cbn [app] in I.
  destruct (fold_left idxmax_step l None) as [[b bv]|]; [|discriminate H].
  cbn in H. injection H as ->. exists bv. exact I.
Qed.

Definition era_months : list date :=
  TimeSeries.date_range (month_start 2020 1) (month_start 2021 12).

(** Between two month starts of 2020 and 2021, the rounded thirtieth of the
    days is the number of months. *)
Lemma lag_months_era :
  forallb (fun u =>
    forallb (fun h =>
      match lag_months u h with
      | Some z => (z =? h - u)%Z
      | None => false
      end) era_months) era_months = true.
Proof. vm_compute. reflexivity. Qed.

Lemma year_era (d : date) :
  (2020 <=? year d)%Z && (year d <=? 2021)%Z = true -> In d era_months.
Proof.
  intros H. apply andb_true_iff in H as [H1 H2].
  apply Z.leb_le in H1, H2. unfold year in *.
  apply TimeSeries.In_date_range. unfold month_start.
  pose proof (Z.div_mod d 12). pose proof (Z.mod_pos_bound d 12). lia.
Qed.

Lemma In_covid_era (column : row -> float) (df : list row)
    (r : row) (v : float) :
  In (r, v) (covid_era (smoothed column (sort_values df))) ->
  In r df /\ In (Date r) era_months.
Proof.
  unfold covid_era, smoothed. intros H.
  apply filter_In in H as [H E]. cbn [fst] in E. split.
  - apply in_combine_l in H.
    now apply (Permutation_in _ (sort_values_perm df)).
  - now apply year_era.
Qed.

(** X19: when [analyze_recession_lag] reports a lag, it is the number of
    calendar months from the month of the unemployment peak to the month of
    the demand peak (negative when demand peaks first), the peaks being rows
    of 2020 or 2021 at which the smoothed unemployment, respectively the
    smoothed demand, is largest among the rows of those years: dividing the
    days by 30 and rounding loses nothing in that window, and the lag is
    between -23 and 23. *)
Theorem recession_lag_is_month_difference (df : list row) (lag : Z) :
  analyze_recession_lag df = Some lag ->
  exists unemp_peak hunger_peak,
    is_peak (covid_era (smoothed Unemployment_Monthly (sort_values df)))
            unemp_peak /\
    is_peak (covid_era (smoothed CalFresh_Persons (sort_values df)))
            hunger_peak /\
    In unemp_peak df /\ In hunger_peak df /\
    (2020 <= year (Date unemp_peak) <= 2021)%Z /\
    (2020 <= year (Date hunger_peak) <= 2021)%Z /\
    lag = (Date hunger_peak - Date unemp_peak)%Z /\
    (-23 <= lag <= 23)%Z.
Proof.
  unfold analyze_recession_lag. cbv zeta.
  destruct (idxmax (covid_era (smoothed Unemployment_Monthly (sort_values df))))
    as [u|] eqn:Eu; [|discriminate].
  destruct (idxmax (covid_era (smoothed CalFresh_Persons (sort_values df))))
    as [h|] eqn:Eh; [|discriminate].
  intros L.
  pose proof (idxmax_is_max _ _ Eu) as Pu.
  pose proof (idxmax_is_max _ _ Eh) as Ph.
  destruct Pu as (uv & Hu & Pu), Ph as (hv & Hh & Ph).
  destruct (In_covid_era _ _ _ _ Hu) as [Iu Mu].
  destruct (In_covid_era _ _ _ _ Hh) as [Ih Mh].
  pose proof lag_months_era as F. rewrite forallb_forall in F.
  specialize (F _ Mu). rewrite forallb_forall in F. specialize (F _ Mh).
  rewrite L in F. apply Z.eqb_eq in F.
  apply TimeSeries.In_date_range in Mu, Mh. unfold month_start in Mu, Mh.
  assert (Y : forall d, (24240 <= d <= 24263)%Z -> (2020 <= year d <= 2021)%Z).
  { intros d Hd. unfold year.
    pose proof (Z.div_mod d 12). pose proof (Z.mod_pos_bound d 12). lia. }
  exists u, h.
  split; [exists uv; now split|]. split; [exists hv; now split|].
  split; [exact Iu|]. split; [exact Ih|].
  split; [apply Y; lia|]. split; [apply Y; lia|]. split; lia.
Qed.

(** The smoothed unemployment peaks in June 2020, the smoothed demand in
    August 2020. *)
Definition df_covid : list row :=
  map (fun dv => mkRow (fst dv) "Statewide" (snd dv))
      (combine (TimeSeries.date_range (month_start 2020 1) (month_start 2020 9))
               [ [100; 4]; [100; 4]; [101; 5]; [110; 16]; [125; 15];
                 [140; 14]; [135; 13]; [130; 11]; [128; 10] ]).

Lemma recession_lag_is_month_difference_witness :
  analyze_recession_lag df_covid = Some 2%Z /\
  exists unemp_peak hunger_peak,
    is_peak (covid_era (smoothed Unemployment_Monthly (sort_values df_covid)))
            unemp_peak /\
    In hunger_peak df_covid /\
    (Date hunger_peak - Date unemp_peak)%Z = 2%Z.
Proof.
  assert (E : analyze_recession_lag df_covid = Some 2%Z)
    by (vm_compute; reflexivity).
  split; [exact E|].
  destruct (recession_lag_is_month_difference df_covid _ E)
    as (u & h & Pu & _ & _ & Hh & _ & _ & Hl & _).
  exists u, h. repeat split; try assumption. now rewrite <- Hl.
Defined.

End Advanced.
